(** * signals-in-threads, example-03: word-counting tasks, the registry of
      running tasks and the signal-handling thread that cancels them.

    The development embeds [src/example-03.cpp]:
    - [Ios]: the part of [std::istream] the program relies on
      ([eof], [fail], [std::getline]);
    - [Task]: the task object and the pure part of [Task::operator()]
      (word counting, the line-reading loop);
    - [World] and the monad [M]: the process state the three thread roles
      share (file system, task objects, [TasksRegistry::_tasks], the thread
      library's cancellation requests, console output);
    - [TasksRegistry], [Task::operator()] and [sig_handle_worker_routine]
      as computations in [M];
    - [T] and the definitions named [_thread]: [Task::operator()] on a
      thread of the pool, with the cancellation points at which the thread
      library acts on a request made by [pthread_cancel].

    Loops of the source that are not structurally recursive take a [fuel]
    bound on their number of iterations; theorems about results say which
    amount of fuel suffices. *)

From stdpp Require Import gmap strings list fin_maps sorting.
From Stdlib Require Import ZArith NArith Lia Ascii String.

Local Open Scope Z_scope.

(* ===================================================================== *)
(** ** Input streams *)
(* ===================================================================== *)

Module Ios.

(** The unread characters of the stream and two of its state bits.
    [badbit] is left out: a stream here is a finite sequence of characters
    held in memory (the contents of a regular file, or the line given to a
    [std::stringstream]) and reading it cannot fail with an I/O error. *)
Record istream := mkStream {
  buf : string;
  eofbit : bool;
  failbit : bool
}.

Definition of_string (s : string) : istream :=
  {| buf := s; eofbit := false; failbit := false |}.

Definition good (s : istream) : bool := negb (eofbit s) && negb (failbit s).
Definition eof (s : istream) : bool := eofbit s.
Definition fail (s : istream) : bool := failbit s.

(** The extraction loop of [std::getline]: characters are moved to the
    result until the delimiter is met (it is extracted and dropped) or the
    data ends (which sets [eofbit]). Returns the characters stored, the
    rest of the buffer and whether the end of the data was hit. *)
Fixpoint extract (delim : ascii) (b : string) : string * string * bool :=
  match b with
  | EmptyString => (EmptyString, EmptyString, true)
  | String c r =>
      if Ascii.eqb c delim then (EmptyString, r, false)
      else let '(w, r', e) := extract delim r in (String c w, r', e)
  end.

Definition is_empty (s : string) : bool :=
  match s with EmptyString => true | String _ _ => false end.

(** [std::getline(is, str, delim)]. The sentry fails on a stream that is
    not [good]: [failbit] is set and [str] keeps its value. Otherwise
    [str] is erased and filled by [extract]; [failbit] is set when no
    character at all was extracted, which happens exactly when the buffer
    was empty. *)
Definition getline (s : istream) (str : string) (delim : ascii)
  : istream * string :=
  if good s then
    let '(w, r, e) := extract delim (buf s) in
    ({| buf := r;
        eofbit := eofbit s || e;
        failbit := failbit s || is_empty (buf s) |}, w)
  else
    ({| buf := buf s; eofbit := eofbit s; failbit := true |}, str).

End Ios.

(* ===================================================================== *)
(** ** Task objects and the pure part of [Task::operator()] *)
(* ===================================================================== *)

Definition pthread_t := N.

(** [const Task*]: an address, [NULL] being 0. *)
Definition task_ptr := N.
Definition NULL : task_ptr := 0%N.

Definition uint32_max : Z := 2 ^ 32.
Definition size_max : Z := 2 ^ 64.

Record Task := mkTask {
  _fname : option string;            (* const char*, None is NULL *)
  _tid : pthread_t;
  _start : Z;                        (* clock_t *)
  _line_count : Z;                   (* std::size_t *)
  _word_counters : gmap string Z     (* std::map<std::string, std::uint32_t> *)
}.

Definition set_tid (v : pthread_t) (t : Task) : Task :=
  {| _fname := _fname t; _tid := v; _start := _start t;
     _line_count := _line_count t; _word_counters := _word_counters t |}.
Definition set_start (v : Z) (t : Task) : Task :=
  {| _fname := _fname t; _tid := _tid t; _start := v;
     _line_count := _line_count t; _word_counters := _word_counters t |}.
Definition set_line_count (v : Z) (t : Task) : Task :=
  {| _fname := _fname t; _tid := _tid t; _start := _start t;
     _line_count := v; _word_counters := _word_counters t |}.
Definition set_word_counters (v : gmap string Z) (t : Task) : Task :=
  {| _fname := _fname t; _tid := _tid t; _start := _start t;
     _line_count := _line_count t; _word_counters := v |}.

(** The lambda [count_word]: [n = _word_counters[w]; _word_counters[w] = n + 1]
    on 32-bit unsigned counters; [operator[]] reads 0 for a missing word. *)
Definition count_word (w : string) (wc : gmap string Z) : gmap string Z :=
  let n := default 0 (wc !! w) in
  <[w := (n + 1) mod uint32_max]> wc.

(** The loop [while (std::getline(ss, word, ' ')) count_word(word);]. *)
Fixpoint split_loop (fuel : nat) (ss : Ios.istream) (word : string)
    (wc : gmap string Z) : option (gmap string Z) :=
  match fuel with
  | O => None
  | S fuel' =>
      let '(ss', word') := Ios.getline ss word " " in
      if Ios.fail ss' then Some wc
      else split_loop fuel' ss' word' (count_word word' wc)
  end.

(** The lambda [split_line_and_count_words]. *)
Definition split_line_and_count_words (fuel : nat) (line : string)
    (wc : gmap string Z) : option (gmap string Z) :=
  split_loop fuel (Ios.of_string line) EmptyString wc.

(** The state the line-reading loop works on. *)
Record loop_state := mkLoop {
  in_file : Ios.istream;
  line : string;
  task : Task
}.

(** One pass through the body of [while (!in_file.eof()) { ... }], the loop
    condition having been found true. [None]: the inner loop ran out of
    fuel. *)
Definition loop_body (fuel : nat) (st : loop_state) : option loop_state :=
  let '(in', line') := Ios.getline (in_file st) (line st) "010" in
  if Ios.fail in' || Ios.is_empty line' then
    Some {| in_file := in'; line := line'; task := task st |}
  else
    let t1 := set_line_count ((_line_count (task st) + 1) mod size_max) (task st) in
    match split_line_and_count_words fuel line' (_word_counters t1) with
    | None => None
    | Some wc => Some {| in_file := in'; line := line';
                         task := set_word_counters wc t1 |}
    end.

(** The loop of lines 268-274. *)
Fixpoint read_loop (fuel : nat) (st : loop_state) : option loop_state :=
  match fuel with
  | O => None
  | S fuel' =>
      if Ios.eof (in_file st) then Some st
      else match loop_body fuel' st with
           | None => None
           | Some st' => read_loop fuel' st'
           end
  end.

(** [words_total]: the 32-bit sum of all counters. *)
Definition words_total (wc : gmap string Z) : Z :=
  map_fold (fun _ n acc => (acc + n) mod uint32_max) 0 wc.

(* ===================================================================== *)
(** ** The process state and the monad of effects *)
(* ===================================================================== *)

(** What the program writes to [std::cout] and [std::cerr]. The elapsed
    time printed with [TaskFinished] is a floating-point value and is left
    out. *)
Inductive event :=
| RegisterThread (tid : pthread_t)
| UnregisterThread (tid : pthread_t)
| OpenFailed (fname : string) (tid : pthread_t)
| TaskFinished (tid : pthread_t) (lines words : Z)
| SigwaitError
| ReceivedSignal (n : Z)
| CancelRunningTasks
| CancelFailed (tid : pthread_t).

Record World := mkWorld {
  fs : gmap string string;          (* readable files and their contents *)
  heap : gmap task_ptr Task;        (* the live Task objects *)
  _tasks : gmap pthread_t task_ptr; (* TasksRegistry::_tasks *)
  threads : gset pthread_t;         (* threads the thread library knows *)
  cancel_pending : gset pthread_t;  (* threads with a cancellation request *)
  cancel_calls : list pthread_t;    (* arguments of the pthread_cancel calls *)
  ticks : Z;                        (* what clock() returns *)
  out : list event;                 (* console output, oldest first *)
  running : bool;                   (* ::running *)
  sig_num : Z                       (* ::sig_num *)
}.

Definition set_heap (v : gmap task_ptr Task) (w : World) : World :=
  mkWorld (fs w) v (_tasks w) (threads w) (cancel_pending w) (cancel_calls w)
          (ticks w) (out w) (running w) (sig_num w).
Definition set_tasks (v : gmap pthread_t task_ptr) (w : World) : World :=
  mkWorld (fs w) (heap w) v (threads w) (cancel_pending w) (cancel_calls w)
          (ticks w) (out w) (running w) (sig_num w).
Definition set_cancel_pending (v : gset pthread_t) (w : World) : World :=
  mkWorld (fs w) (heap w) (_tasks w) (threads w) v (cancel_calls w)
          (ticks w) (out w) (running w) (sig_num w).
Definition set_cancel_calls (v : list pthread_t) (w : World) : World :=
  mkWorld (fs w) (heap w) (_tasks w) (threads w) (cancel_pending w) v
          (ticks w) (out w) (running w) (sig_num w).
Definition set_out (v : list event) (w : World) : World :=
  mkWorld (fs w) (heap w) (_tasks w) (threads w) (cancel_pending w)
          (cancel_calls w) (ticks w) v (running w) (sig_num w).
Definition set_running (v : bool) (w : World) : World :=
  mkWorld (fs w) (heap w) (_tasks w) (threads w) (cancel_pending w)
          (cancel_calls w) (ticks w) (out w) v (sig_num w).
Definition set_sig_num (v : Z) (w : World) : World :=
  mkWorld (fs w) (heap w) (_tasks w) (threads w) (cancel_pending w)
          (cancel_calls w) (ticks w) (out w) (running w) v.

(** Ways a computation stops without returning. *)
Inductive crash :=
| AssertFailed        (* assert() failed: abort(), no destructor runs *)
| BadPointer.         (* a Task pointer that refers to no live object *)

Inductive outcome (A : Type) :=
| Ok (a : A) (w : World)
| Crashed (c : crash) (w : World)
| OutOfFuel.
Arguments Ok {A} a w.
Arguments Crashed {A} c w.
Arguments OutOfFuel {A}.

Definition M (A : Type) : Type := World -> outcome A.

Definition ret {A} (a : A) : M A := fun w => Ok a w.
Definition bind {A B} (m : M A) (k : A -> M B) : M B :=
  fun w => match m w with
           | Ok a w' => k a w'
           | Crashed c w' => Crashed c w'
           | OutOfFuel => OutOfFuel
           end.

#[global] Instance M_ret : MRet M := @ret.
#[global] Instance M_bind : MBind M := fun A B k m => bind m k.

Definition get {A} (f : World -> A) : M A := fun w => Ok (f w) w.
Definition modify (f : World -> World) : M unit := fun w => Ok tt (f w).
Definition stop {A} (c : crash) : M A := fun w => Crashed c w.
Definition out_of_fuel {A} : M A := fun _ => OutOfFuel.

(** [std::cout << ...] and [std::cerr << ...]. *)
Definition print (e : event) : M unit :=
  modify (fun w => set_out (out w ++ [e]) w).

(** Reading and writing a Task object through a pointer. *)
Definition deref (p : task_ptr) : M Task :=
  fun w => match heap w !! p with
           | Some t => Ok t w
           | None => Crashed BadPointer w
           end.
Definition update (p : task_ptr) (f : Task -> Task) : M unit :=
  t ← deref p; modify (fun w => set_heap (<[p := f t]> (heap w)) w).

(** [std::ifstream in_file(fname)]: a file that cannot be opened gives a
    stream with [failbit] set. *)
Definition ifstream_open (fname : string) : M Ios.istream :=
  get (fun w => match fs w !! fname with
                | Some contents => Ios.of_string contents
                | None => Ios.mkStream EmptyString false true
                end).

(** [clock()]: the processor time used so far. The model holds it fixed
    at [ticks]; nothing is stated about its progress. *)
Definition clock : M Z := get ticks.

Definition ESRCH : Z := 3.

(** [pthread_cancel(tid)]: marks a known thread for cancellation and
    returns 0; fails with [ESRCH] for an unknown thread. The thread library
    acts on the mark on its own, at a cancellation point of the target.
    [threads] holds the ids of the threads that exist. POSIX defines the
    call for these only: for the id of a thread that has ended it
    recommends the error [ESRCH], which is what is modelled, but a thread
    library need not detect the case, and a value that never was the id of
    a thread may crash the call. *)
Definition pthread_cancel (tid : pthread_t) : M Z :=
  modify (fun w => set_cancel_calls (cancel_calls w ++ [tid]) w);;
  known ← get (fun w => bool_decide (tid ∈ threads w));
  if known : bool then
    modify (fun w => set_cancel_pending (cancel_pending w ∪ {[tid]}) w);;
    ret 0
  else ret ESRCH.

(* ===================================================================== *)
(** ** TasksRegistry *)
(* ===================================================================== *)

(** Every operation runs between [_mutex.lock()] and [_mutex.unlock()]; in
    this model an operation is one step, which is what the lock gives. The
    calling thread, [pthread_self()], is the argument [self]. *)

(** The constructor of [TasksRegistry], given the task's address. *)
Definition TasksRegistry_ctor (self : pthread_t) (task : task_ptr) : M unit :=
  print (RegisterThread self);;
  modify (fun w => set_tasks (<[self := task]> (_tasks w)) w).

(** The destructor [TasksRegistry::~TasksRegistry()]. *)
Definition TasksRegistry_dtor (self : pthread_t) : M unit :=
  print (UnregisterThread self);;
  modify (fun w => set_tasks (delete self (_tasks w)) w).

(** [std::map] is walked in increasing key order. *)
Definition by_tid (a b : pthread_t * task_ptr) : Prop := (a.1 ≤ b.1)%N.

#[global] Instance by_tid_dec a b : Decision (by_tid a b) :=
  decide (a.1 ≤ b.1)%N.

Definition entries (m : gmap pthread_t task_ptr)
  : list (pthread_t * task_ptr) :=
  merge_sort by_tid (map_to_list m).

(** The loop of [GetRunningTasks]:
    [if (p.second != NULL) tasks.push_back(p.second);]. *)
Fixpoint push_running (es : list (pthread_t * task_ptr))
    (tasks : list task_ptr) : list task_ptr :=
  match es with
  | [] => tasks
  | p :: es' =>
      push_running es' (if decide (p.2 ≠ NULL) then tasks ++ [p.2] else tasks)
  end.

(** [TasksRegistry::GetRunningTasks()]: the list is built from the table
    and returned by value. *)
Definition GetRunningTasks : M (list task_ptr) :=
  get (fun w => push_running (entries (_tasks w)) []).

(* ===================================================================== *)
(** ** Task::operator() *)
(* ===================================================================== *)

(** The body of [Task::operator()] after the declaration of
    [registry_entry]; both [return] paths end it with [Ok]. *)
Definition Task_body (fuel : nat) (self : pthread_t) (this : task_ptr)
  : M unit :=
  update this (set_tid self);;
  t ← deref this;
  match _fname t with
  | None => stop AssertFailed
  | Some fname =>
      in_file ← ifstream_open fname;
      if Ios.fail in_file then
        print (OpenFailed fname (_tid t))
      else
        update this (set_line_count 0);;
        now ← clock;
        update this (set_start now);;
        t ← deref this;
        match read_loop fuel (mkLoop in_file EmptyString t) with
        | None => out_of_fuel
        | Some st =>
            update this (fun _ => task st);;
            print (TaskFinished (_tid (task st)) (_line_count (task st))
                     (words_total (_word_counters (task st))))
        end
  end.

(** [Task::operator()]: [registry_entry] is constructed first and destroyed
    when the body returns. A crash ends the process and runs no
    destructor. *)
Definition Task_call (fuel : nat) (self : pthread_t) (this : task_ptr)
  : M unit :=
  TasksRegistry_ctor self this;;
  Task_body fuel self this;;
  TasksRegistry_dtor self.

(* ===================================================================== *)
(** ** The signal-handling thread *)
(* ===================================================================== *)

Definition SIGINT : Z := 2.
Definition SIGABRT : Z := 6.
Definition SIGTERM : Z := 15.

(** The loop [for (const Task* task : tasks)] of lines 102-108. *)
Fixpoint cancel_loop (tasks : list task_ptr) : M unit :=
  match tasks with
  | [] => ret tt
  | task :: rest =>
      t ← deref task;
      rc ← pthread_cancel (_tid t);
      (if bool_decide (rc ≠ 0) then print (CancelFailed (_tid t)) else ret tt);;
      cancel_loop rest
  end.

(** Lines 99-108. *)
Definition cancel_running_tasks : M unit :=
  print CancelRunningTasks;;
  tasks ← GetRunningTasks;
  cancel_loop tasks.

(** [sig_handle_worker_routine]. [sigwaits] lists what the successive calls
    of [sigwait] give: the return value and the signal stored. The result
    is [false] when the list ends while the thread still waits. *)
Fixpoint sig_handle_worker_routine (sigwaits : list (Z * Z))
    (sig_num : Z) (emergency : bool) : M bool :=
  r ← get running;
  if negb r then modify (set_running false);; ret true
  else
    match sigwaits with
    | [] => ret false
    | (rc, sig) :: rest =>
        s ← (if rc <? 0 then print SigwaitError;; ret (sig_num, true)
             else modify (set_sig_num sig);; print (ReceivedSignal sig);;
                  ret (sig, emergency));
        if s.2 || (s.1 =? SIGINT) || (s.1 =? SIGABRT) || (s.1 =? SIGTERM) then
          cancel_running_tasks;;
          modify (set_running false);;
          ret true
        else sig_handle_worker_routine rest s.1 s.2
    end.

(* ===================================================================== *)
(** ** Reference definitions for word counting *)
(* ===================================================================== *)

(** Splitting at a delimiter, the way repeated [std::getline] calls do: a
    piece ends at each delimiter (pieces may be empty); the characters
    after the last delimiter form a last piece if there are any. [cur]
    holds the piece being read. *)
Fixpoint split_at (delim : ascii) (cur : string) (s : string) : list string :=
  match s with
  | EmptyString => if Ios.is_empty cur then [] else [cur]
  | String c r =>
      if Ascii.eqb c delim then cur :: split_at delim EmptyString r
      else split_at delim (cur ++ String c EmptyString) r
  end.

Definition count_words (words : list string) (wc : gmap string Z)
  : gmap string Z :=
  foldl (fun wc w => count_word w wc) wc words.

Definition nonempty (l : string) : Prop := Ios.is_empty l = false.

(** The non-empty lines of a file. *)
Definition nonempty_lines (contents : string) : list string :=
  filter nonempty (split_at "010" EmptyString contents).

(** Single-threaded reference for what the task computes: every non-empty
    line is split at each space character and each piece is counted. *)
Definition reference_counts (contents : string) (wc : gmap string Z)
  : gmap string Z :=
  foldl (fun wc l => count_words (split_at " " EmptyString l) wc)
        wc (nonempty_lines contents).

(** Tokenizing on whitespace, as the specification words it: the words of
    a line are its maximal runs of characters that are not whitespace
    (space, tab, line feed, vertical tab, form feed, carriage return). *)
Definition isspace (c : ascii) : bool :=
  let n := nat_of_ascii c in
  (n =? 32)%nat || ((9 <=? n)%nat && (n <=? 13)%nat).

Fixpoint whitespace_tokens (cur : string) (s : string) : list string :=
  match s with
  | EmptyString => if Ios.is_empty cur then [] else [cur]
  | String c r =>
      if isspace c then
        (if Ios.is_empty cur then whitespace_tokens EmptyString r
         else cur :: whitespace_tokens EmptyString r)
      else whitespace_tokens (cur ++ String c EmptyString) r
  end.

Definition whitespace_reference_counts (contents : string)
    (wc : gmap string Z) : gmap string Z :=
  foldl (fun wc l => count_words (whitespace_tokens EmptyString l) wc)
        wc (nonempty_lines contents).

(** What the loop body does to the task for one non-empty line. *)
Definition count_line (l : string) (t : Task) : Task :=
  let t1 := set_line_count ((_line_count t + 1) mod size_max) t in
  set_word_counters (count_words (split_at " " EmptyString l) (_word_counters t1)) t1.

Definition process_lines (ls : list string) (t : Task) : Task :=
  foldl (fun t l => count_line l t) t ls.

(** The task object a run leaves behind for a file with the given
    contents: the fields set on entry, then the lines processed. *)
Definition Task_result (self : pthread_t) (now : Z) (contents : string)
    (t : Task) : Task :=
  process_lines (nonempty_lines contents)
    (set_start now (set_line_count 0 (set_tid self t))).

(* ===================================================================== *)
(** ** Clients of the registry and of the monitor *)
(* ===================================================================== *)

(** A registry operation performed by a thread: the construction or the
    destruction of a [TasksRegistry] object on that thread. *)
Inductive reg_op :=
| Register (tid : pthread_t) (task : task_ptr)
| Unregister (tid : pthread_t).

Definition op_tid (op : reg_op) : pthread_t :=
  match op with Register tid _ => tid | Unregister tid => tid end.

Definition run_op (op : reg_op) : M unit :=
  match op with
  | Register tid task => TasksRegistry_ctor tid task
  | Unregister tid => TasksRegistry_dtor tid
  end.

Fixpoint run_ops (ops : list reg_op) : M unit :=
  match ops with
  | [] => mret tt
  | op :: rest => run_op op;; run_ops rest
  end.

(** What a registry operation does to the table. *)
Definition apply_op (m : gmap pthread_t task_ptr) (op : reg_op)
  : gmap pthread_t task_ptr :=
  match op with
  | Register tid task => <[tid := task]> m
  | Unregister tid => delete tid m
  end.

(** What a registry operation prints. *)
Definition op_event (op : reg_op) : event :=
  match op with
  | Register tid _ => RegisterThread tid
  | Unregister tid => UnregisterThread tid
  end.

(** [tid] registered [p] during [ops] and has performed no registry
    operation since. *)
Definition registered_in (ops : list reg_op) (tid : pthread_t)
    (p : task_ptr) : Prop :=
  exists before after,
    ops = before ++ Register tid p :: after /\
    Forall (fun op => op_tid op <> tid) after.

(** The thread ids the monitor reads through a list of task pointers. *)
Definition tids_of (h : gmap task_ptr Task) (tasks : list task_ptr)
  : list pthread_t :=
  omap (fun p => _tid <$> h !! p) tasks.

(** The effect of one pass of the monitor's loop for a task whose thread
    id is [tid]. *)
Definition cancel_one (tid : pthread_t) (w : World) : World :=
  let w1 := set_cancel_calls (cancel_calls w ++ [tid]) w in
  if bool_decide (tid ∈ threads w) then
    set_cancel_pending (cancel_pending w ∪ {[tid]}) w1
  else set_out (out w ++ [CancelFailed tid]) w1.

Definition cancel_all (tids : list pthread_t) (w : World) : World :=
  foldl (fun w tid => cancel_one tid w) w tids.

(** Worlds used in examples. Thread 1 is a pool thread; the task objects
    live at addresses 100 and 200. *)
Definition fresh_task (fname : string) : Task :=
  mkTask (Some fname) 0%N 0 0 ∅.

Definition two_lines : string :=
  String "a" (String "010" (String "b" (String "010" EmptyString))).

Definition tab_line : string :=
  String "a" (String "009" (String "b" (String "010" EmptyString))).

Definition example_world : World :=
  mkWorld {[ "two"%string := two_lines; "tab"%string := tab_line;
             "empty"%string := EmptyString ]}
          {[ 100%N := fresh_task "two"; 200%N := fresh_task "missing";
             300%N := fresh_task "tab"; 400%N := fresh_task "empty" ]}
          ∅ {[ 1%N ]} ∅ [] 0 [] true 0.


(** A world for the monitor: the tasks at 100 and 200 run on threads 1 and
    2, and the thread library no longer knows thread 1. *)
Definition monitor_world : World :=
  mkWorld ∅
          (<[100%N := mkTask (Some "two"%string) 1%N 0 0 ∅]>
             (<[200%N := mkTask (Some "two"%string) 2%N 0 0 ∅]> ∅))
          (<[1%N := 100%N]> (<[2%N := 200%N]> ∅))
          {[ 2%N ]} ∅ [] 0 [] true 0.

(* ===================================================================== *)
(** ** A run under the thread library's deferred cancellation *)
(* ===================================================================== *)

(** [Task_call] is the code of [Task::operator()] on a thread that no
    cancellation request reaches. The threads of the pool have
    cancellation enabled and deferred: the thread library acts on a
    request when the marked thread reaches a cancellation point, which in a
    run are the system calls under the flush of a console message, the
    opening of the file and the reads from the file. It then unwinds the
    stack of the thread, which destroys [registry_entry] if it was
    constructed, and ends the thread: [Task::operator()] does not return.
    In this part [out] is what the thread has given to [std::cout] and
    [std::cerr]; a message is given to the stream before the stream is
    flushed. *)

(** The cancellation points of a run. *)
Inductive site :=
| AtRegister     (* line 291: [std::endl] in the constructor; [_mutex] is
                    held and the insertion of line 292 is still to come *)
| AtAssert       (* line 242: the message of a failed assertion *)
| AtOpen         (* line 243 *)
| AtOpenFailure  (* lines 246-247: [std::cerr] is not buffered *)
| AtRead         (* line 270: a call of getline that reads from the file *)
| AtSummary      (* lines 280-283 *)
| AtUnregister.  (* line 299: [std::endl] in the destructor, before the
                    erase of line 300 *)


(** How a run on a thread ends. [Done] counts the cancellation points
    passed. [Cancelled]: the thread library ended the thread at the given
    point. [Terminated]: a request was acted on inside a function that
    no exception may leave; [std::terminate] aborts the process. *)
Inductive thread_end (A : Type) :=
| Done (a : A) (n : nat) (w : World)
| Died (c : crash) (w : World)
| Cancelled (at_site : site) (w : World)
| Terminated (w : World)
| NoFuel.
Arguments Done {A} a n w.
Arguments Died {A} c w.
Arguments Cancelled {A} at_site w.
Arguments Terminated {A} w.
Arguments NoFuel {A}.

Definition T (A : Type) : Type := nat -> World -> thread_end A.

Definition tret {A} (a : A) : T A := fun n w => Done a n w.

#[global] Instance T_ret : MRet T := @tret.















(** A world in which an object is run a second time: thread 1 ran the
    task at 100 earlier and now runs the task at 300; thread 2 is a second
    thread of the pool. *)
Definition rerun_world : World :=
  mkWorld (fs example_world)
          {[ 100%N := set_tid 1%N (fresh_task "two");
             300%N := set_tid 1%N (fresh_task "tab") ]}
          {[ 1%N := 300%N ]} ({[ 1%N ]} ∪ {[ 2%N ]}) ∅ [] 0 [] true 0.

(* ===================================================================== *)
(** ** Vocabulary for further properties of the run *)
(* ===================================================================== *)

(** All the pieces a run counts for a file, line after line. *)
Definition file_words (contents : string) : list string :=
  List.concat (split_at " " EmptyString <$> nonempty_lines contents).

(** How often [w] occurs in a list of pieces. *)
Definition occurrences (w : string) (ws : list string) : nat :=
  List.length (filter (fun x => x = w) ws).

Fixpoint has_char (c : ascii) (s : string) : bool :=
  match s with
  | EmptyString => false
  | String a r => Ascii.eqb a c || has_char c r
  end.

(** The number of characters of a list of pieces. *)
Definition total_length (ls : list string) : nat :=
  foldr (fun l n => (String.length l + n)%nat) 0%nat ls.

(** A world whose only task object, at 7, has no file name. *)
Definition null_fname_world : World :=
  set_heap {[ 7%N := mkTask None 0%N 0 0 ∅ ]} example_world.

(** [m] leaves the observation [f] of the world as it is, whether it
    returns or crashes. *)
Definition keeps {A X} (f : World -> X) (m : M A) : Prop :=
  forall w, match m w with
            | Ok _ w' | Crashed _ w' => f w' = f w
            | OutOfFuel => True
            end.

(** [m] only appends to the console output. *)
Definition appends {A} (m : M A) : Prop :=
  forall w, match m w with
            | Ok _ w' | Crashed _ w' => exists more, out w' = out w ++ more
            | OutOfFuel => True
            end.

(* ===================================================================== *)
(** ** Vocabulary for the signal-handling thread *)
(* ===================================================================== *)

(** The signals on which the handler cancels the tasks and ends. *)
Definition terminating (sig : Z) : bool :=
  (sig =? SIGINT) || (sig =? SIGABRT) || (sig =? SIGTERM).

(** A result of [sigwait] after which the handler goes on waiting: the
    call succeeded and the signal is not a terminating one. *)
Definition benign (r : Z * Z) : Prop := 0 <= r.1 /\ terminating r.2 = false.

(** What the handler does with a signal it received: it stores the number
    in [::sig_num] and prints it. *)
Definition record_signal (sig : Z) (w : World) : World :=
  set_out (out w ++ [ReceivedSignal sig]) (set_sig_num sig w).

Definition record_signals (sigs : list Z) (w : World) : World :=
  foldl (fun w sig => record_signal sig w) w sigs.

(** Every non-null pointer of the registry refers to a live task object. *)
Definition live_registry (w : World) : Prop :=
  forall tid p, _tasks w !! tid = Some p -> p <> NULL -> is_Some (heap w !! p).

(* ===================================================================== *)
(** ** The set-up and the end of [main] *)
(* ===================================================================== *)

(** Lines 119-155 of [main], up to the creation of the signal-handling
    thread, and lines 215-222, the restoration of the signal mask. What
    lies between (the pool, the status loop) runs concurrently with the
    other threads and is not part of this model. *)
Module Main.

Definition SIGILL : Z := 4.
Definition SIGTRAP : Z := 5.
Definition SIGBUS : Z := 7.
Definition SIGFPE : Z := 8.

(** The array [sig_nums]. *)
Definition sig_nums : list Z :=
  [SIGINT; SIGTERM; SIGILL; SIGFPE; SIGBUS; SIGTRAP; SIGABRT].

(** What [main] writes in these lines. *)
Inductive main_event :=
| Usage
| SigemptysetFailed
| SigaddsetFailed (sig : Z)
| SigprocmaskFailed
| PthreadCreateFailed
| RestoreFailed.

Record Process := mkProcess {
  sig_set : gset Z;               (* ::sig_set *)
  blocked : gset Z;               (* the signal mask of the main thread *)
  handler_mask : option (gset Z); (* the mask the handler thread started
                                     with, once it is created *)
  console : list main_event
}.

Definition say (e : main_event) (p : Process) : Process :=
  mkProcess (sig_set p) (blocked p) (handler_mask p) (console p ++ [e]).

(** How these lines of [main] end: with [std::exit], or by going on with
    the saved mask [original_sig_set]. *)
Inductive main_step :=
| Exit (code : Z) (p : Process)
| Continue (original_sig_set : gset Z) (p : Process).

(** [sigemptyset(&::sig_set)]. *)
Definition sigemptyset (p : Process) : Z * Process :=
  (0, mkProcess ∅ (blocked p) (handler_mask p) (console p)).

(** [sigaddset(&::sig_set, sig)]: fails for a number that is no signal
    (1 to 64 are signals). *)
Definition sigaddset (sig : Z) (p : Process) : Z * Process :=
  if (1 <=? sig) && (sig <=? 64) then
    (0, mkProcess (sig_set p ∪ {[sig]}) (blocked p) (handler_mask p)
          (console p))
  else (-1, p).

(** The loop of lines 134-140; the result names the signal that could not
    be added, if any. *)
Fixpoint add_signals (nums : list Z) (p : Process) : option Z * Process :=
  match nums with
  | [] => (None, p)
  | sig :: rest =>
      let '(rc, p') := sigaddset sig p in
      if rc <? 0 then (Some sig, p') else add_signals rest p'
  end.

(** [sigprocmask(SIG_BLOCK, &sig_set, &original_sig_set)]: the result
    holds the return value and the previous mask. *)
Definition sigprocmask_block (p : Process) : Z * gset Z * Process :=
  (0, blocked p,
   mkProcess (sig_set p) (blocked p ∪ sig_set p) (handler_mask p) (console p)).

(** [sigprocmask(SIG_SETMASK, &original_sig_set, NULL)]. *)
Definition sigprocmask_setmask (m : gset Z) (p : Process) : Z * Process :=
  (0, mkProcess (sig_set p) m (handler_mask p) (console p)).

(** [pthread_create] for the handler thread, [rc] being what the call
    returns: a new thread starts with the mask of its creator. *)
Definition pthread_create_handler (rc : Z) (p : Process) : Process :=
  if rc =? 0 then
    mkProcess (sig_set p) (blocked p) (Some (blocked p)) (console p)
  else p.

(** Lines 119-155. *)
Definition main_setup (argc : Z) (create_rc : Z) (p : Process) : main_step :=
  if negb (argc =? 2) then Exit (-1) (say Usage p)
  else
    let '(rc, p1) := sigemptyset p in
    if rc <? 0 then Exit (-1) (say SigemptysetFailed p1)
    else
      match add_signals sig_nums p1 with
      | (Some sig, p2) => Exit (-1) (say (SigaddsetFailed sig) p2)
      | (None, p2) =>
          let '(rc, original_sig_set, p3) := sigprocmask_block p2 in
          if negb (rc =? 0) then Exit (-1) (say SigprocmaskFailed p3)
          else
            let p4 := pthread_create_handler create_rc p3 in
            if negb (create_rc =? 0) then
              Exit (-1) (say PthreadCreateFailed p4)
            else Continue original_sig_set p4
      end.

(** Lines 215-222. *)
Definition main_end (original_sig_set : gset Z) (p : Process) : main_step :=
  let '(rc, p1) := sigprocmask_setmask original_sig_set p in
  if negb (rc =? 0) then Exit (-1) (say RestoreFailed p1)
  else Exit 0 p1.

End Main.

(* ===================================================================== *)
(** ** Streams: facts about [extract] and [getline] *)
(* ===================================================================== *)

Section StreamFacts.

Variable delim : ascii.

Lemma extract_length b w r e :
  Ios.extract delim b = (w, r, e) ->
  (String.length r <= String.length b)%nat /\
  (b <> EmptyString -> (String.length r < String.length b)%nat) /\
  (String.length w <= String.length b)%nat.
Proof.
  revert w r e. induction b as [|c b IH]; intros w r e; simpl.
  - intros [= <- <- <-]. simpl. repeat split; try lia. congruence.
  - destruct (Ascii.eqb c delim).
    + intros [= <- <- <-]. simpl. repeat split; lia.
    + destruct (Ios.extract delim b) as [[w1 r1] e1] eqn:E.
      intros [= <- <- <-]. destruct (IH _ _ _ eq_refl) as (H1 & _ & H3).
      simpl. repeat split; lia.
Qed.

Lemma extract_eof b w r e :
  Ios.extract delim b = (w, r, e) -> e = true -> r = EmptyString.
Proof.
  revert w r e. induction b as [|c b IH]; intros w r e; simpl.
  - intros [= <- <- <-]. done.
  - destruct (Ascii.eqb c delim).
    + intros [= <- <- <-]. done.
    + destruct (Ios.extract delim b) as [[w1 r1] e1] eqn:E.
      intros [= <- <- <-]. eauto.
Qed.

Lemma append_assoc_char (cur : string) c w :
  ((cur ++ String c EmptyString) ++ w = cur ++ String c w)%string.
Proof.
  induction cur as [|a cur IH]; [reflexivity|].
  change (String a ((cur ++ String c EmptyString) ++ w) = String a (cur ++ String c w))%string.
  by rewrite IH.
Qed.

Lemma append_empty_r (cur : string) : (cur ++ EmptyString = cur)%string.
Proof.
  induction cur as [|a cur IH]; [reflexivity|].
  change (String a (cur ++ EmptyString) = String a cur)%string.
  by rewrite IH.
Qed.

(** [split_at] in terms of one extraction. *)
Lemma split_at_extract cur b w r e :
  Ios.extract delim b = (w, r, e) ->
  split_at delim cur b =
    if e then (if Ios.is_empty (cur ++ w) then [] else [(cur ++ w)%string])
    else (cur ++ w)%string :: split_at delim EmptyString r.
Proof.
  revert cur w r e. induction b as [|c b IH]; intros cur w r e; simpl.
  - intros [= <- <- <-]. by rewrite append_empty_r.
  - destruct (Ascii.eqb c delim).
    + intros [= <- <- <-]. by rewrite append_empty_r.
    + destruct (Ios.extract delim b) as [[w1 r1] e1] eqn:E.
      intros [= <- <- <-]. rewrite (IH _ _ _ _ eq_refl).
      by rewrite append_assoc_char.
Qed.

Lemma extract_nonempty_word b w r :
  Ios.extract delim b = (w, r, true) -> b <> EmptyString ->
  Ios.is_empty w = false.
Proof.
  destruct b as [|c b]; [done|]. simpl.
  destruct (Ascii.eqb c delim); [done|].
  destruct (Ios.extract delim b) as [[w1 r1] e1].
  by intros [= <- _ _].
Qed.

End StreamFacts.

(* ===================================================================== *)
(** ** The two loops of [Task::operator()] *)
(* ===================================================================== *)

(** The inner loop counts the pieces of the line, given one unit of fuel
    per character and one more. *)
Lemma split_loop_spec fuel ss word wc :
  Ios.failbit ss = false ->
  (Ios.eofbit ss = true -> Ios.buf ss = EmptyString) ->
  (String.length (Ios.buf ss) + 1 <= fuel)%nat ->
  split_loop fuel ss word wc =
    Some (count_words
            (if Ios.eofbit ss then [] else split_at " " EmptyString (Ios.buf ss))
            wc).
Proof.
  revert ss word wc. induction fuel as [|fuel IH]; intros ss word wc Hf He Hn;
    [lia|].
  destruct ss as [b e f]; simpl in *; subst f.
  unfold Ios.getline, Ios.good; simpl.
  destruct e; simpl; [done|].
  destruct (Ios.extract " " b) as [[w r] e'] eqn:E.
  rewrite (split_at_extract _ EmptyString _ _ _ _ E).
  change (EmptyString ++ w)%string with w.
  pose proof (extract_length _ _ _ _ _ E) as (_ & Hlt & _).
  destruct b as [|c b].
  - simpl in E. by injection E as <- <- <-.
  - specialize (Hlt ltac:(done)). simpl in Hlt, Hn.
    change (Ios.is_empty (String c b)) with false. cbv iota.
    rewrite IH; simpl; [| done | intros ->; by eapply extract_eof | lia].
    destruct e'; [|done].
    by rewrite (extract_nonempty_word _ _ _ _ E).
Qed.

Lemma split_line_and_count_words_spec fuel l wc :
  (String.length l + 1 <= fuel)%nat ->
  split_line_and_count_words fuel l wc =
    Some (count_words (split_at " " EmptyString l) wc).
Proof.
  intros H. unfold split_line_and_count_words.
  by rewrite split_loop_spec.
Qed.

(** The line-reading loop ends with [eofbit] set, having processed the
    non-empty lines in order. The fuel needed is the number of unread
    characters plus two. *)
Lemma read_loop_spec fuel st :
  (Ios.eofbit (in_file st) = false -> Ios.failbit (in_file st) = false) ->
  (if Ios.eofbit (in_file st) then 1 <= fuel
   else String.length (Ios.buf (in_file st)) + 2 <= fuel)%nat ->
  exists st',
    read_loop fuel st = Some st' /\
    Ios.eof (in_file st') = true /\
    task st' =
      process_lines
        (filter nonempty
           (if Ios.eofbit (in_file st) then []
            else split_at "010" EmptyString (Ios.buf (in_file st))))
        (task st).
Proof.
  revert st. induction fuel as [|fuel IH]; intros [[b e f] ln t] Hf Hn;
    simpl in *; [destruct e; lia|].
  unfold Ios.eof; simpl. destruct e; [by eexists|].
  rewrite Hf in * by done. clear Hf.
  unfold loop_body, Ios.getline, Ios.good; simpl.
  destruct (Ios.extract "010" b) as [[w r] e'] eqn:E.
  pose proof (extract_length _ _ _ _ _ E) as (_ & Hlt & Hw).
  rewrite (split_at_extract _ EmptyString _ _ _ _ E).
  change (EmptyString ++ w)%string with w.
  destruct b as [|c b].
  - simpl in E. injection E as <- <- <-. simpl.
    destruct (IH (mkLoop (Ios.mkStream EmptyString true true) EmptyString t))
      as (st' & Hr & He & Ht); simpl; [done | lia |].
    simpl in Hr, Ht. rewrite Hr. by exists st'.
  - specialize (Hlt ltac:(done)). simpl in Hlt, Hn, Hw.
    change (Ios.is_empty (String c b)) with false. cbv iota.
    destruct (Ios.is_empty w) eqn:Ew; simpl.
    + destruct e'; [by rewrite (extract_nonempty_word _ _ _ _ E) in Ew|].
      destruct (IH (mkLoop (Ios.mkStream r false false) w t))
        as (st' & Hr & He & Ht); simpl; [done | lia |].
      simpl in Hr, Ht. rewrite Hr. exists st'. split_and!; [done..|].
      rewrite filter_cons_False; [done | unfold nonempty; congruence].
    + rewrite split_line_and_count_words_spec by lia.
      set (t' := set_word_counters _ _).
      destruct (IH (mkLoop (Ios.mkStream r e' false) w t'))
        as (st' & Hr & He & Ht); simpl; [done | destruct e'; lia |].
      simpl in Hr, Ht. rewrite Hr. exists st'. split_and!; [done..|].
      rewrite Ht. destruct e'; rewrite ?Ew; by rewrite filter_cons_True.
Qed.

(** The pieces the inner loop counts: two spaces in a row give an empty
    piece, a space at the end of the line gives none, a tab does not
    separate. *)
Example split_at_spaces :
  split_at " " EmptyString "a  b " = ["a"; EmptyString; "b"]%string.
Proof. reflexivity. Qed.

Example split_loop_spaces :
  map_to_list <$> split_line_and_count_words 6 "a  b " ∅
    = Some [("a", 1); ("b", 1); (EmptyString, 1)]%string.
Proof. by vm_compute. Qed.

Example split_at_tab :
  split_at " " EmptyString tab_line
    = [String "a" (String "009" (String "b" (String "010" EmptyString)))].
Proof. reflexivity. Qed.

(** A last line without a line feed is processed; an empty line between
    two lines is skipped. *)
Example read_loop_lines :
  (fun st => (_line_count (task st), Ios.eof (in_file st)))
    <$> read_loop 9 (mkLoop (Ios.of_string
                               (String "a" (String "010" (String "010"
                                  (String "b" (String " " (String "a"
                                     EmptyString)))))))
                            EmptyString (fresh_task "f"))
    = Some (2, true).
Proof. by vm_compute. Qed.

(* ===================================================================== *)
(** ** Stepping through computations in [M] *)
(* ===================================================================== *)

Lemma bind_Ok {A B} (m : M A) (k : A -> M B) w a w1 :
  m w = Ok a w1 -> (m ≫= k) w = k a w1.
Proof. intros H. unfold mbind, M_bind, bind. by rewrite H. Qed.

Lemma bind_Crashed {A B} (m : M A) (k : A -> M B) w c w1 :
  m w = Crashed c w1 -> (m ≫= k) w = Crashed c w1.
Proof. intros H. unfold mbind, M_bind, bind. by rewrite H. Qed.

Lemma print_Ok e w : print e w = Ok tt (set_out (out w ++ [e]) w).
Proof. reflexivity. Qed.

Lemma deref_Ok p t w : heap w !! p = Some t -> deref p w = Ok t w.
Proof. intros H. unfold deref. by rewrite H. Qed.

Lemma update_Ok p f t w :
  heap w !! p = Some t ->
  update p f w = Ok tt (set_heap (<[p := f t]> (heap w)) w).
Proof.
  intros H. unfold update. by rewrite (bind_Ok _ _ _ _ _ (deref_Ok _ _ _ H)).
Qed.

Lemma process_lines_fields ls t :
  _fname (process_lines ls t) = _fname t /\
  _tid (process_lines ls t) = _tid t /\
  _start (process_lines ls t) = _start t.
Proof.
  revert t. induction ls as [|l ls IH]; intros t; [done|].
  simpl. destruct (IH (count_line l t)) as (-> & -> & ->). done.
Qed.

Lemma process_lines_counters ls t :
  _word_counters (process_lines ls t) =
    foldl (fun wc l => count_words (split_at " " EmptyString l) wc)
          (_word_counters t) ls.
Proof.
  revert t. induction ls as [|l ls IH]; intros t; [done|].
  simpl. by rewrite IH.
Qed.

Lemma process_lines_line_count ls t :
  0 <= _line_count t < size_max ->
  _line_count (process_lines ls t) =
    (_line_count t + Z.of_nat (List.length ls)) mod size_max.
Proof.
  revert t. induction ls as [|l ls IH]; intros t Ht.
  - simpl. rewrite Z.add_0_r, Z.mod_small; done.
  - change (process_lines (l :: ls) t) with (process_lines ls (count_line l t)).
    rewrite IH; simpl.
    + rewrite Zplus_mod_idemp_l. f_equal. lia.
    + apply Z.mod_pos_bound. done.
Qed.

Lemma read_loop_file fuel contents ln t :
  (String.length contents + 2 <= fuel)%nat ->
  exists st,
    read_loop fuel (mkLoop (Ios.of_string contents) ln t) = Some st /\
    Ios.eof (in_file st) = true /\
    task st = process_lines (nonempty_lines contents) t.
Proof.
  intros Hn.
  destruct (read_loop_spec fuel (mkLoop (Ios.of_string contents) ln t))
    as (st & Hr & He & Ht); simpl; [done | lia |].
  by exists st.
Qed.

(** The body of a run on a readable file. *)
Lemma Task_body_readable fuel self this w t fname contents :
  heap w !! this = Some t ->
  _fname t = Some fname ->
  fs w !! fname = Some contents ->
  (String.length contents + 2 <= fuel)%nat ->
  let tf := Task_result self (ticks w) contents t in
  Task_body fuel self this w =
    Ok tt (set_out (out w ++ [TaskFinished self (_line_count tf)
                                (words_total (_word_counters tf))])
             (set_heap (<[this := tf]> (heap w)) w)).
Proof.
  intros Hh Hf Hfs Hn tf. unfold Task_body.
  rewrite (bind_Ok _ _ _ _ _ (update_Ok _ _ _ _ Hh)).
  erewrite bind_Ok; [|apply deref_Ok; simpl; apply lookup_insert_eq].
  simpl (_fname _). rewrite Hf.
  erewrite bind_Ok; [|unfold ifstream_open, get; simpl; by rewrite Hfs].
  simpl (Ios.fail _). cbv iota.
  erewrite bind_Ok; [|apply update_Ok; simpl; apply lookup_insert_eq].
  erewrite bind_Ok; [|reflexivity].
  erewrite bind_Ok; [|apply update_Ok; simpl; apply lookup_insert_eq].
  erewrite bind_Ok; [|apply deref_Ok; simpl; apply lookup_insert_eq].
  destruct (read_loop_file fuel contents EmptyString
              (set_start (ticks w) (set_line_count 0 (set_tid self t))) Hn)
    as (st & Hr & _ & Ht).
  simpl (ticks _). rewrite Hr.
  erewrite bind_Ok; [|apply update_Ok; simpl; apply lookup_insert_eq].
  rewrite print_Ok. fold (Task_result self (ticks w) contents t) in Ht.
  fold tf in Ht. rewrite Ht.
  destruct (process_lines_fields (nonempty_lines contents)
              (set_start (ticks w) (set_line_count 0 (set_tid self t))))
    as (_ & Htid & _).
  fold (Task_result self (ticks w) contents t) in Htid. fold tf in Htid.
  rewrite Htid. simpl.
  unfold set_out, set_heap; simpl. by rewrite !insert_insert_eq.
Qed.

(** A run on a readable file: the whole effect of [Task::operator()]. *)
Lemma Task_call_readable fuel self this w t fname contents :
  heap w !! this = Some t ->
  _fname t = Some fname ->
  fs w !! fname = Some contents ->
  (String.length contents + 2 <= fuel)%nat ->
  let tf := Task_result self (ticks w) contents t in
  Task_call fuel self this w =
    Ok tt (set_tasks (delete self (<[self := this]> (_tasks w)))
            (set_out (out w ++ [RegisterThread self;
                                TaskFinished self (_line_count tf)
                                  (words_total (_word_counters tf));
                                UnregisterThread self])
               (set_heap (<[this := tf]> (heap w)) w))).
Proof.
  intros Hh Hf Hfs Hn tf. unfold Task_call.
  erewrite bind_Ok; [|reflexivity].
  erewrite bind_Ok;
    [|by apply (Task_body_readable _ _ _ _ t fname contents)].
  unfold TasksRegistry_dtor. erewrite bind_Ok; [|reflexivity].
  unfold modify, set_tasks, set_out, set_heap; simpl.
  by rewrite <- !app_assoc.
Qed.

(* ===================================================================== *)
(** ** The registry *)
(* ===================================================================== *)

Lemma push_running_filter es acc :
  push_running es acc = acc ++ filter (fun p => p <> NULL) es.*2.
Proof.
  revert acc. induction es as [|[tid p] es IH]; intros acc; simpl.
  - by rewrite app_nil_r.
  - rewrite IH. destruct (decide (p <> NULL)).
    + rewrite filter_cons_True by done. by rewrite <- app_assoc.
    + by rewrite filter_cons_False.
Qed.

Lemma elem_of_entries m tid p :
  (tid, p) ∈ entries m <-> m !! tid = Some p.
Proof.
  unfold entries. rewrite merge_sort_Permutation.
  apply elem_of_map_to_list.
Qed.

Lemma elem_of_running m p :
  p ∈ push_running (entries m) [] <->
  p <> NULL /\ exists tid, m !! tid = Some p.
Proof.
  rewrite push_running_filter. simpl.
  rewrite list_elem_of_filter, list_elem_of_fmap. split.
  - intros [Hp [[tid q] [-> Hin]]]. split; [done|].
    exists tid. by apply elem_of_entries.
  - intros [Hp [tid Hm]]. split; [done|].
    exists (tid, p). split; [done|]. by apply elem_of_entries.
Qed.

Lemma registered_in_snoc ops op tid p :
  op_tid op <> tid ->
  registered_in (ops ++ [op]) tid p <-> registered_in ops tid p.
Proof.
  intros Hne. split.
  - intros (before & after & Heq & Hall).
    destruct after as [|x after _] using rev_ind.
    + change (before ++ [Register tid p]) with (before ++ [Register tid p])
        in Heq.
      apply app_inj_tail in Heq as [_ ->]. by destruct Hne.
    + rewrite app_comm_cons, app_assoc in Heq.
      apply app_inj_tail in Heq as [-> ->].
      exists before, after. split; [done|].
      by apply Forall_app in Hall as [? _].
  - intros (before & after & -> & Hall).
    exists before, (after ++ [op]). split.
    + by rewrite <- app_assoc.
    + apply Forall_app. split; [done|]. by constructor.
Qed.

Lemma registered_in_snoc_same ops op tid p :
  op_tid op = tid ->
  registered_in (ops ++ [op]) tid p <-> op = Register tid p.
Proof.
  intros Heq. split.
  - intros (before & after & Hops & Hall).
    destruct after as [|x after _] using rev_ind.
    + by apply app_inj_tail in Hops as [_ ->].
    + rewrite app_comm_cons, app_assoc in Hops.
      apply app_inj_tail in Hops as [_ ->].
      apply Forall_app in Hall as [_ Hx]. by inversion Hx.
  - intros ->. exists ops, []. split; [done | constructor].
Qed.

(** The table after a history, entry by entry. *)
Lemma lookup_apply_ops ops tid p :
  foldl apply_op ∅ ops !! tid = Some p <-> registered_in ops tid p.
Proof.
  induction ops as [|op ops IH] using rev_ind.
  - simpl. rewrite lookup_empty. split; [done|].
    intros (before & after & Heq & _). by destruct before.
  - rewrite foldl_app. simpl.
    destruct (decide (op_tid op = tid)) as [Heq|Hne].
    + rewrite registered_in_snoc_same by done.
      destruct op as [tid' q|tid']; simpl in *; subst tid'.
      * rewrite lookup_insert_eq. split; congruence.
      * rewrite lookup_delete_eq. split; congruence.
    + rewrite registered_in_snoc by done. rewrite <- IH.
      destruct op as [tid' q|tid']; simpl in *.
      * by rewrite lookup_insert_ne.
      * by rewrite lookup_delete_ne.
Qed.

Lemma run_ops_Ok ops w :
  run_ops ops w =
    Ok tt (set_tasks (foldl apply_op (_tasks w) ops)
             (set_out (out w ++ (op_event <$> ops)) w)).
Proof.
  revert w. induction ops as [|op ops IH]; intros w.
  - simpl. rewrite app_nil_r. by destruct w.
  - simpl. destruct op as [tid q|tid]; simpl.
    + erewrite bind_Ok; [|reflexivity].
      rewrite IH. unfold set_tasks, set_out; simpl. by rewrite <- app_assoc.
    + erewrite bind_Ok; [|reflexivity].
      rewrite IH. unfold set_tasks, set_out; simpl. by rewrite <- app_assoc.
Qed.

(* ===================================================================== *)
(** ** The monitor's loop over a list of tasks *)
(* ===================================================================== *)

Lemma cancel_one_frame tid w :
  fs (cancel_one tid w) = fs w /\
  heap (cancel_one tid w) = heap w /\
  _tasks (cancel_one tid w) = _tasks w /\
  threads (cancel_one tid w) = threads w /\
  running (cancel_one tid w) = running w.
Proof. unfold cancel_one. by destruct (bool_decide (tid ∈ threads w)). Qed.

Lemma cancel_pass tid (k : M unit) w :
  (rc ← pthread_cancel tid;
   (if bool_decide (rc ≠ 0) then print (CancelFailed tid) else ret tt);; k) w
  = k (cancel_one tid w).
Proof.
  unfold pthread_cancel, cancel_one.
  unfold mbind, M_bind, bind, modify, get, print, ret; simpl.
  by destruct (bool_decide (tid ∈ threads w)).
Qed.

Lemma cancel_loop_Ok tasks w :
  Forall (fun p => is_Some (heap w !! p)) tasks ->
  cancel_loop tasks w = Ok tt (cancel_all (tids_of (heap w) tasks) w).
Proof.
  revert w. induction tasks as [|p tasks IH]; intros w Hlive; [done|].
  apply Forall_cons in Hlive as [[t Ht] Hlive].
  simpl. erewrite bind_Ok; [|by apply deref_Ok].
  rewrite cancel_pass. unfold tids_of; simpl. rewrite Ht; simpl.
  destruct (cancel_one_frame (_tid t) w) as (_ & Hh & _).
  rewrite IH by (by rewrite Hh). unfold tids_of. by rewrite Hh.
Qed.

(** The monitor's loop writes no task object and no registry entry, also
    when it stops on a pointer that refers to no live object. *)
Lemma cancel_loop_frame tasks w :
  match cancel_loop tasks w with
  | Ok _ w' | Crashed _ w' => heap w' = heap w /\ _tasks w' = _tasks w
  | OutOfFuel => False
  end.
Proof.
  revert w. induction tasks as [|p tasks IH]; intros w; simpl; [done|].
  unfold mbind at 1, M_bind at 1, bind at 1, deref.
  destruct (heap w !! p) as [t|]; [|done].
  rewrite cancel_pass. specialize (IH (cancel_one (_tid t) w)).
  destruct (cancel_one_frame (_tid t) w) as (_ & Hh & Ht & _).
  destruct (cancel_loop tasks (cancel_one (_tid t) w));
    [by rewrite <- Hh, <- Ht ..| done].
Qed.

Lemma cancel_all_frame tids w :
  fs (cancel_all tids w) = fs w /\
  heap (cancel_all tids w) = heap w /\
  _tasks (cancel_all tids w) = _tasks w /\
  threads (cancel_all tids w) = threads w /\
  running (cancel_all tids w) = running w.
Proof.
  revert w. induction tids as [|tid tids IH]; intros w; [done|].
  simpl. destruct (IH (cancel_one tid w)) as (-> & -> & -> & -> & ->).
  apply cancel_one_frame.
Qed.

Lemma cancel_all_calls tids w :
  cancel_calls (cancel_all tids w) = cancel_calls w ++ tids.
Proof.
  revert w. induction tids as [|tid tids IH]; intros w; simpl.
  - by rewrite app_nil_r.
  - rewrite IH. unfold cancel_one.
    destruct (bool_decide (tid ∈ threads w)); simpl; by rewrite <- app_assoc.
Qed.

Lemma cancel_all_out tids w :
  out (cancel_all tids w) =
    out w ++ (CancelFailed <$> filter (fun tid => tid ∉ threads w) tids).
Proof.
  revert w. induction tids as [|tid tids IH]; intros w; simpl.
  - by rewrite app_nil_r.
  - rewrite IH. destruct (cancel_one_frame tid w) as (_ & _ & _ & -> & _).
    unfold cancel_one. case_bool_decide as Hin; simpl.
    + by rewrite filter_cons_False by (intros H; by apply H).
    + rewrite filter_cons_True by done. simpl. by rewrite <- app_assoc.
Qed.

Lemma cancel_all_pending tids w :
  cancel_pending (cancel_all tids w) =
    cancel_pending w ∪ list_to_set (filter (fun tid => tid ∈ threads w) tids).
Proof.
  revert w. induction tids as [|tid tids IH]; intros w; simpl.
  - by rewrite (right_id_L ∅ (∪)).
  - rewrite IH. destruct (cancel_one_frame tid w) as (_ & _ & _ & -> & _).
    unfold cancel_one. case_bool_decide as Hin; simpl.
    + rewrite filter_cons_True by done. simpl. by rewrite (assoc_L (∪)).
    + by rewrite filter_cons_False.
Qed.

(** The body of a run on a file that cannot be opened. *)
Lemma Task_body_unreadable fuel self this w t fname :
  heap w !! this = Some t ->
  _fname t = Some fname ->
  fs w !! fname = None ->
  Task_body fuel self this w =
    Ok tt (set_out (out w ++ [OpenFailed fname self])
             (set_heap (<[this := set_tid self t]> (heap w)) w)).
Proof.
  intros Hh Hf Hfs. unfold Task_body.
  rewrite (bind_Ok _ _ _ _ _ (update_Ok _ _ _ _ Hh)).
  erewrite bind_Ok; [|apply deref_Ok; simpl; apply lookup_insert_eq].
  simpl (_fname _). rewrite Hf.
  erewrite bind_Ok; [|unfold ifstream_open, get; simpl; by rewrite Hfs].
  reflexivity.
Qed.

(* ===================================================================== *)
(** ** A file that cannot be opened (C2) *)
(* ===================================================================== *)

(** C2, as stated, does not hold: the task at 200 is bound to a file that
    does not exist; its run registers it first, the registry holds it
    while the open fails, and the destructor removes it on return. *)
Lemma C2_registered_before_open_counterexample :
  exists w1 w2 w3,
    TasksRegistry_ctor 1%N 200%N example_world = Ok tt w1 /\
    GetRunningTasks w1 = Ok [200%N] w1 /\
    Task_body 5 1%N 200%N w1 = Ok tt w2 /\
    out w2 = [RegisterThread 1%N; OpenFailed "missing" 1%N] /\
    GetRunningTasks w2 = Ok [200%N] w2 /\
    TasksRegistry_dtor 1%N w2 = Ok tt w3 /\
    Task_call 5 1%N 200%N example_world = Ok tt w3.
Proof.
  eexists _, _, _. split_and!.
  - reflexivity.
  - by vm_compute.
  - apply (Task_body_unreadable _ _ _ _ (fresh_task "missing") "missing");
      by vm_compute.
  - reflexivity.
  - by vm_compute.
  - reflexivity.
  - unfold Task_call.
    erewrite bind_Ok; [|reflexivity].
    erewrite bind_Ok;
      [|apply (Task_body_unreadable _ _ _ _ (fresh_task "missing") "missing");
        by vm_compute].
    reflexivity.
Qed.

(** C2, amended: when the file cannot be opened the run logs the failure
    and returns; the task was registered on entry, before the open, and is
    removed from the registry by the destructor on return: the registry
    holds the task during the failed open and not after the run. *)
Theorem C2_open_failure fuel self this w t fname :
  heap w !! this = Some t ->
  _fname t = Some fname ->
  fs w !! fname = None ->
  exists w1 w2 w3,
    TasksRegistry_ctor self this w = Ok tt w1 /\
    _tasks w1 !! self = Some this /\
    Task_body fuel self this w1 = Ok tt w2 /\
    out w2 = out w ++ [RegisterThread self; OpenFailed fname self] /\
    _tasks w2 !! self = Some this /\
    TasksRegistry_dtor self w2 = Ok tt w3 /\
    Task_call fuel self this w = Ok tt w3 /\
    out w3 = out w ++ [RegisterThread self; OpenFailed fname self;
                       UnregisterThread self] /\
    _tasks w3 = delete self (_tasks w).
Proof.
  intros Hh Hf Hfs.
  set (w1 := set_tasks (<[self := this]> (_tasks w))
               (set_out (out w ++ [RegisterThread self]) w)).
  assert (Hbody : Task_body fuel self this w1 =
                    Ok tt (set_out (out w1 ++ [OpenFailed fname self])
                             (set_heap (<[this := set_tid self t]> (heap w1)) w1)))
    by (by apply Task_body_unreadable).
  eexists w1, _, _. split_and!.
  - reflexivity.
  - simpl. apply lookup_insert_eq.
  - exact Hbody.
  - simpl. by rewrite <- app_assoc.
  - simpl. apply lookup_insert_eq.
  - reflexivity.
  - unfold Task_call.
    erewrite bind_Ok; [|reflexivity].
    erewrite bind_Ok; [|exact Hbody].
    reflexivity.
  - simpl. by rewrite <- !app_assoc.
  - simpl. apply delete_insert_eq.
Qed.

Lemma C2_open_failure_witness :
  exists w1 w2 w3,
    TasksRegistry_ctor 1%N 200%N example_world = Ok tt w1 /\
    _tasks w1 !! 1%N = Some 200%N /\
    Task_body 5 1%N 200%N w1 = Ok tt w2 /\
    out w2 = out example_world ++
               [RegisterThread 1%N; OpenFailed "missing" 1%N] /\
    _tasks w2 !! 1%N = Some 200%N /\
    TasksRegistry_dtor 1%N w2 = Ok tt w3 /\
    Task_call 5 1%N 200%N example_world = Ok tt w3 /\
    out w3 = out example_world ++
               [RegisterThread 1%N; OpenFailed "missing" 1%N;
                UnregisterThread 1%N] /\
    _tasks w3 = delete 1%N (_tasks example_world).
Proof.
  apply (C2_open_failure 5 1%N 200%N example_world (fresh_task "missing")
           "missing"); vm_compute; reflexivity.
Defined.

#[global] Instance by_tid_total : Total by_tid.
Proof. intros a b. unfold by_tid. lia. Qed.

(** The table is walked in increasing order of thread id. *)
Lemma entries_sorted m : Sorted by_tid (entries m).
Proof. apply Sorted_merge_sort. apply _. Qed.

Example running_tasks_in_tid_order :
  (run_ops [Register 3%N 300%N; Register 1%N 100%N; Register 2%N NULL];;
   GetRunningTasks) example_world
  = Ok [100%N; 300%N]
       (set_tasks (<[2%N := NULL]> (<[1%N := 100%N]> (<[3%N := 300%N]> ∅)))
          (set_out [RegisterThread 3%N; RegisterThread 1%N; RegisterThread 2%N]
             example_world)).
Proof. by vm_compute. Qed.

(* ===================================================================== *)
(** ** Registering twice (C3) *)
(* ===================================================================== *)

(** C3, as stated, does not hold: a second registration from thread 1
    without an unregistration in between returns normally and replaces the
    entry of the thread. *)
Lemma C3_double_register_counterexample :
  exists w',
    (TasksRegistry_ctor 1%N 100%N;; TasksRegistry_ctor 1%N 200%N)
      example_world = Ok tt w' /\
    GetRunningTasks w' = Ok [200%N] w'.
Proof. eexists. split; [reflexivity | by vm_compute]. Qed.

(** C3, amended: registering twice from the same thread without an
    unregistration in between does not fail: the second call replaces the
    entry of the thread. A registration after an unregistration on that
    thread succeeds as well, with the same table as result. *)
Theorem C3_register_overwrites w self t1 t2 :
  (TasksRegistry_ctor self t1;; TasksRegistry_ctor self t2) w =
    Ok tt (set_tasks (<[self := t2]> (_tasks w))
             (set_out (out w ++ [RegisterThread self; RegisterThread self]) w))
  /\
  (TasksRegistry_ctor self t1;; TasksRegistry_dtor self;;
   TasksRegistry_ctor self t2) w =
    Ok tt (set_tasks (<[self := t2]> (_tasks w))
             (set_out (out w ++ [RegisterThread self; UnregisterThread self;
                                 RegisterThread self]) w)).
Proof.
  split.
  - erewrite bind_Ok; [|reflexivity].
    unfold TasksRegistry_ctor, print, modify, set_tasks, set_out.
    unfold mbind, M_bind, bind; simpl.
    by rewrite insert_insert_eq, <- app_assoc.
  - erewrite bind_Ok; [|reflexivity].
    erewrite bind_Ok; [|reflexivity].
    unfold TasksRegistry_ctor, print, modify, set_tasks, set_out.
    unfold mbind, M_bind, bind; simpl.
    by rewrite insert_delete_eq, insert_insert_eq, <- !app_assoc.
Qed.

(* ===================================================================== *)
(** ** The snapshot (C4, C9) *)
(* ===================================================================== *)

(** C4: after any history of registrations and unregistrations, from an
    empty table, the snapshot holds exactly the tasks that some thread
    registered without having touched the registry since; and the list
    returned is a value of its own: read after later registry operations
    it is still the list taken at the time of the call. *)
Theorem C4_snapshot_exact ops later w :
  _tasks w = ∅ ->
  exists w1 snapshot,
    run_ops ops w = Ok tt w1 /\
    GetRunningTasks w1 = Ok snapshot w1 /\
    (forall p, p ∈ snapshot <->
               p <> NULL /\ exists tid, registered_in ops tid p) /\
    exists w2,
      (tasks ← GetRunningTasks; run_ops later;; mret tasks) w1
        = Ok snapshot w2 /\
      _tasks w2 = foldl apply_op (_tasks w1) later.
Proof.
  intros Hempty. eexists _, _. split_and!.
  - apply run_ops_Ok.
  - reflexivity.
  - intros p. simpl. rewrite Hempty, elem_of_running.
    by setoid_rewrite lookup_apply_ops.
  - eexists. split.
    + erewrite bind_Ok; [|reflexivity].
      erewrite bind_Ok; [|apply run_ops_Ok]. reflexivity.
    + reflexivity.
Qed.

Lemma C4_snapshot_exact_witness :
  exists w1 snapshot,
    run_ops [Register 1%N 100%N; Register 2%N 200%N; Unregister 1%N]
      example_world = Ok tt w1 /\
    GetRunningTasks w1 = Ok snapshot w1 /\
    (forall p, p ∈ snapshot <->
               p <> NULL /\
               exists tid,
                 registered_in
                   [Register 1%N 100%N; Register 2%N 200%N; Unregister 1%N]
                   tid p) /\
    exists w2,
      (tasks ← GetRunningTasks; run_ops [Unregister 2%N];; mret tasks) w1
        = Ok snapshot w2 /\
      _tasks w2 = foldl apply_op (_tasks w1) [Unregister 2%N].
Proof.
  apply (C4_snapshot_exact
           [Register 1%N 100%N; Register 2%N 200%N; Unregister 1%N]
           [Unregister 2%N] example_world).
  reflexivity.
Defined.

(** C9: every element of the list [GetRunningTasks] returns is non-null,
    whatever the table holds, and comes from an entry of the table. *)
Theorem C9_snapshot_non_null w :
  exists snapshot,
    GetRunningTasks w = Ok snapshot w /\
    Forall (fun p => p <> NULL) snapshot /\
    Forall (fun p => exists tid, _tasks w !! tid = Some p) snapshot.
Proof.
  eexists. split; [reflexivity|].
  split; apply Forall_forall; intros p Hp; apply elem_of_running in Hp;
    by destruct Hp.
Qed.

(* ===================================================================== *)
(** ** What a completed run has counted (C5, C8, C10) *)
(* ===================================================================== *)

(** C5, as stated, does not hold: on the line "a<TAB>b" the task counts
    the single word "a<TAB>b", while tokenizing on whitespace gives the
    two words "a" and "b". *)
Lemma C5_whitespace_counterexample :
  exists w' tf,
    Task_call 10 1%N 300%N example_world = Ok tt w' /\
    heap w' !! 300%N = Some tf /\
    _word_counters tf <> whitespace_reference_counts tab_line ∅.
Proof.
  eexists _, _. split_and!.
  - apply (Task_call_readable 10 1%N 300%N example_world
             (fresh_task "tab") "tab"%string tab_line);
      vm_compute; (reflexivity || lia).
  - simpl. apply lookup_insert_eq.
  - intros Heq. apply (f_equal (fun m => m !! "a"%string)) in Heq.
    vm_compute in Heq. discriminate.
Qed.

(** C5, amended: for a readable file processed to completion, the final
    counters are those of the single-threaded reference that splits every
    non-empty line at each space character (the only separator; pieces
    between two spaces count as words) and adds one, on 32 bits, to the
    counter of each piece; the line count is the number of non-empty
    lines. *)
Theorem C5_counts_match_reference fuel self this w t fname contents :
  heap w !! this = Some t ->
  _fname t = Some fname ->
  fs w !! fname = Some contents ->
  (String.length contents + 2 <= fuel)%nat ->
  exists w' tf,
    Task_call fuel self this w = Ok tt w' /\
    heap w' !! this = Some tf /\
    _word_counters tf = reference_counts contents (_word_counters t) /\
    _line_count tf =
      Z.of_nat (List.length (nonempty_lines contents)) mod size_max.
Proof.
  intros Hh Hf Hfs Hn. eexists _, _. split_and!.
  - by apply (Task_call_readable _ _ _ _ t fname contents).
  - simpl. apply lookup_insert_eq.
  - unfold Task_result. by rewrite process_lines_counters.
  - unfold Task_result. rewrite process_lines_line_count; [done|].
    simpl. unfold size_max. lia.
Qed.

Lemma C5_counts_match_reference_witness :
  exists w' tf,
    Task_call 10 1%N 100%N example_world = Ok tt w' /\
    heap w' !! 100%N = Some tf /\
    _word_counters tf =
      reference_counts two_lines (_word_counters (fresh_task "two")) /\
    _line_count tf =
      Z.of_nat (List.length (nonempty_lines two_lines)) mod size_max.
Proof.
  apply (C5_counts_match_reference 10 1%N 100%N example_world
           (fresh_task "two") "two"%string two_lines);
    vm_compute; (reflexivity || lia).
Defined.

(** C8: a run on an empty file, by a task that has counted nothing yet,
    completes normally and reports 0 lines and 0 words. *)
Theorem C8_empty_file fuel self this w t fname :
  heap w !! this = Some t ->
  _fname t = Some fname ->
  fs w !! fname = Some EmptyString ->
  _word_counters t = ∅ ->
  (2 <= fuel)%nat ->
  exists w' tf,
    Task_call fuel self this w = Ok tt w' /\
    out w' = out w ++ [RegisterThread self; TaskFinished self 0 0;
                       UnregisterThread self] /\
    heap w' !! this = Some tf /\
    _line_count tf = 0 /\
    _word_counters tf = ∅.
Proof.
  intros Hh Hf Hfs Hwc Hn.
  pose proof (Task_call_readable fuel self this w t fname EmptyString
                Hh Hf Hfs Hn) as Hrun.
  cbv zeta in Hrun. unfold Task_result in Hrun. simpl in Hrun.
  rewrite Hwc in Hrun.
  eexists _, _. split_and!; [exact Hrun | reflexivity | | |].
  - simpl. apply lookup_insert_eq.
  - done.
  - by simpl.
Qed.

Lemma C8_empty_file_witness :
  exists w' tf,
    Task_call 2 1%N 400%N example_world = Ok tt w' /\
    out w' = out example_world ++
               [RegisterThread 1%N; TaskFinished 1%N 0 0;
                UnregisterThread 1%N] /\
    heap w' !! 400%N = Some tf /\
    _line_count tf = 0 /\
    _word_counters tf = ∅.
Proof.
  apply (C8_empty_file 2 1%N 400%N example_world (fresh_task "empty")
           "empty"%string); vm_compute; (reflexivity || lia).
Defined.

(** Each pass through the loop body on a readable stream takes at least
    one character from the stream or sets [eofbit]. *)
Lemma loop_body_progress fuel st st' :
  Ios.good (in_file st) = true ->
  loop_body fuel st = Some st' ->
  (String.length (Ios.buf (in_file st')) <
     String.length (Ios.buf (in_file st)))%nat \/
  Ios.eof (in_file st') = true.
Proof.
  intros Hgood. unfold loop_body, Ios.getline. rewrite Hgood.
  destruct (Ios.extract "010" (Ios.buf (in_file st))) as [[w r] e] eqn:E.
  pose proof (extract_length _ _ _ _ _ E) as (_ & Hlt & _).
  assert (Hin : forall s, in_file s = Ios.mkStream r
                  (Ios.eofbit (in_file st) || e)
                  (Ios.failbit (in_file st) || Ios.is_empty (Ios.buf (in_file st))) ->
                (String.length (Ios.buf (in_file s)) <
                   String.length (Ios.buf (in_file st)))%nat \/
                Ios.eof (in_file s) = true).
  { intros s ->. unfold Ios.eof; simpl.
    destruct (Ios.buf (in_file st)) as [|c b] eqn:Eb.
    - simpl in E. injection E as <- <- <-. right. apply orb_true_r.
    - left. by apply Hlt. }
  destruct (Ios.fail _ || Ios.is_empty w).
  - intros [= <-]. by apply Hin.
  - destruct (split_line_and_count_words _ _ _); [|done].
    intros [= <-]. by apply Hin.
Qed.

(** C10: on a file of finite contents the line-reading loop terminates.
    Every pass takes characters from the stream or sees its end; with two
    units of fuel more than the file has characters the loop ends with
    [eofbit] set, and the run prints its summary and returns. *)
Theorem C10_run_terminates fuel self this w t fname contents :
  heap w !! this = Some t ->
  _fname t = Some fname ->
  fs w !! fname = Some contents ->
  (String.length contents + 2 <= fuel)%nat ->
  (forall ln t0, exists st,
     read_loop fuel (mkLoop (Ios.of_string contents) ln t0) = Some st /\
     Ios.eof (in_file st) = true) /\
  (forall n st st',
     Ios.good (in_file st) = true -> loop_body n st = Some st' ->
     (String.length (Ios.buf (in_file st')) <
        String.length (Ios.buf (in_file st)))%nat \/
     Ios.eof (in_file st') = true) /\
  exists w' lines words,
    Task_call fuel self this w = Ok tt w' /\
    out w' = out w ++ [RegisterThread self; TaskFinished self lines words;
                       UnregisterThread self].
Proof.
  intros Hh Hf Hfs Hn. split_and!.
  - intros ln t0.
    destruct (read_loop_file fuel contents ln t0 Hn) as (st & Hr & He & _).
    by exists st.
  - apply loop_body_progress.
  - eexists _, _, _. split.
    + by apply (Task_call_readable _ _ _ _ t fname contents).
    + reflexivity.
Qed.

Lemma C10_run_terminates_witness :
  (forall ln t0, exists st,
     read_loop 6 (mkLoop (Ios.of_string two_lines) ln t0) = Some st /\
     Ios.eof (in_file st) = true) /\
  (forall n st st',
     Ios.good (in_file st) = true -> loop_body n st = Some st' ->
     (String.length (Ios.buf (in_file st')) <
        String.length (Ios.buf (in_file st)))%nat \/
     Ios.eof (in_file st') = true) /\
  exists w' lines words,
    Task_call 6 1%N 100%N example_world = Ok tt w' /\
    out w' = out example_world ++
               [RegisterThread 1%N; TaskFinished 1%N lines words;
                UnregisterThread 1%N].
Proof.
  apply (C10_run_terminates 6 1%N 100%N example_world (fresh_task "two")
           "two"%string two_lines); vm_compute; (reflexivity || lia).
Defined.

(* ===================================================================== *)
(** ** The monitor (C6, C7) *)
(* ===================================================================== *)

Lemma tids_of_live h tasks :
  Forall (fun p => is_Some (h !! p)) tasks ->
  Forall2 (fun p tid => _tid <$> h !! p = Some tid) tasks (tids_of h tasks).
Proof.
  induction 1 as [|p tasks [t Ht] _ IH]; [constructor|].
  unfold tids_of; simpl. rewrite Ht; simpl. constructor; [|exact IH].
  by rewrite Ht.
Qed.

(** On one of the three terminating signals the signal-handling thread
    records the signal, cancels the running tasks and ends. *)
Lemma sig_handle_terminating_signal sig rest sig_num emergency w :
  running w = true ->
  sig = SIGINT \/ sig = SIGABRT \/ sig = SIGTERM ->
  sig_handle_worker_routine ((0, sig) :: rest) sig_num emergency w =
    (modify (set_sig_num sig);; print (ReceivedSignal sig);;
     cancel_running_tasks;; modify (set_running false);; mret true) w.
Proof.
  intros Hrun Hsig. cbn [sig_handle_worker_routine].
  unfold mbind, M_bind, bind, get. rewrite Hrun. simpl.
  destruct Hsig as [-> | [-> | ->]]; destruct emergency; reflexivity.
Qed.

(** C6: the monitor calls [pthread_cancel] once for every task of the
    snapshot, in the order of the snapshot, whether or not earlier calls
    failed; every call that fails is logged, every call that succeeds
    leaves its thread marked for cancellation. The tasks of the registry
    are assumed to be live objects. *)
Theorem C6_cancel_continues_after_failure w :
  (forall tid p, _tasks w !! tid = Some p -> p <> NULL ->
                 is_Some (heap w !! p)) ->
  exists snapshot tids w',
    GetRunningTasks w = Ok snapshot w /\
    Forall2 (fun p tid => _tid <$> heap w !! p = Some tid) snapshot tids /\
    cancel_running_tasks w = Ok tt w' /\
    cancel_calls w' = cancel_calls w ++ tids /\
    out w' = out w ++ CancelRunningTasks ::
               (CancelFailed <$> filter (fun tid => tid ∉ threads w) tids) /\
    cancel_pending w' =
      cancel_pending w ∪
        list_to_set (filter (fun tid => tid ∈ threads w) tids).
Proof.
  intros Hlive.
  set (snapshot := push_running (entries (_tasks w)) []).
  assert (Hall : Forall (fun p => is_Some (heap w !! p)) snapshot).
  { apply Forall_forall. intros p Hp.
    apply elem_of_running in Hp as [Hp [tid Hm]]. by eapply Hlive. }
  set (w0 := set_out (out w ++ [CancelRunningTasks]) w).
  exists snapshot, (tids_of (heap w) snapshot),
         (cancel_all (tids_of (heap w) snapshot) w0).
  split_and!.
  - reflexivity.
  - by apply tids_of_live.
  - unfold cancel_running_tasks.
    erewrite bind_Ok; [|reflexivity].
    erewrite bind_Ok; [|reflexivity].
    apply (cancel_loop_Ok snapshot w0). exact Hall.
  - by rewrite cancel_all_calls.
  - rewrite cancel_all_out. simpl. by rewrite <- app_assoc.
  - by rewrite cancel_all_pending.
Qed.

Lemma C6_cancel_continues_after_failure_witness :
  exists snapshot tids w',
    GetRunningTasks monitor_world = Ok snapshot monitor_world /\
    Forall2 (fun p tid => _tid <$> heap monitor_world !! p = Some tid)
            snapshot tids /\
    cancel_running_tasks monitor_world = Ok tt w' /\
    cancel_calls w' = cancel_calls monitor_world ++ tids /\
    out w' = out monitor_world ++ CancelRunningTasks ::
               (CancelFailed <$>
                  filter (fun tid => tid ∉ threads monitor_world) tids) /\
    cancel_pending w' =
      cancel_pending monitor_world ∪
        list_to_set (filter (fun tid => tid ∈ threads monitor_world) tids).
Proof.
  apply (C6_cancel_continues_after_failure monitor_world).
  intros tid p Hm _. simpl in Hm.
  apply lookup_insert_Some in Hm as [[_ <-]|[_ Hm]].
  - exists (mkTask (Some "two"%string) 1%N 0 0 ∅). reflexivity.
  - apply lookup_insert_Some in Hm as [[_ <-]|[_ Hm]].
    + exists (mkTask (Some "two"%string) 2%N 0 0 ∅). reflexivity.
    + rewrite lookup_empty in Hm. discriminate.
Defined.

(** The run of [monitor_world]: the call for thread 1 fails and is logged,
    and the task on thread 2 still gets its request. *)
Example monitor_world_run :
  exists w',
    cancel_running_tasks monitor_world = Ok tt w' /\
    cancel_calls w' = [1%N; 2%N] /\
    out w' = [CancelRunningTasks; CancelFailed 1%N] /\
    elements (cancel_pending w') = [2%N].
Proof. eexists. split_and!; [reflexivity | by vm_compute..]. Qed.

(* ===================================================================== *)
(** ** What a run leaves unchanged *)
(* ===================================================================== *)

Lemma keeps_bind {A B X} (f : World -> X) (m : M A) (k : A -> M B) :
  keeps f m -> (forall a, keeps f (k a)) -> keeps f (m ≫= k).
Proof.
  intros Hm Hk w. unfold mbind, M_bind, bind.
  specialize (Hm w). destruct (m w) as [a w1|c w1|]; [|done..].
  specialize (Hk a w1). destruct (k a w1); by rewrite ?Hk.
Qed.

Lemma keeps_get {A X} (f : World -> X) (g : World -> A) : keeps f (get g).
Proof. by intros w. Qed.

Lemma keeps_modify {X} (f : World -> X) (g : World -> World) :
  (forall w, f (g w) = f w) -> keeps f (modify g).
Proof. intros H w. apply H. Qed.

Lemma keeps_deref {X} (f : World -> X) p : keeps f (deref p).
Proof. intros w. unfold deref. by destruct (heap w !! p). Qed.

Lemma keeps_update {X} (f : World -> X) p g :
  (forall t w, f (set_heap (<[p := t]> (heap w)) w) = f w) ->
  keeps f (update p g).
Proof.
  intros H. apply keeps_bind; [apply keeps_deref|].
  intros t. apply keeps_modify. intros w. apply H.
Qed.

(** The body of a run changes only the console output and the object at
    [this]. *)
Lemma keeps_Task_body {X} (f : World -> X) fuel self this :
  (forall o w, f (set_out o w) = f w) ->
  (forall t w, f (set_heap (<[this := t]> (heap w)) w) = f w) ->
  keeps f (Task_body fuel self this).
Proof.
  intros Ho Hh. unfold Task_body.
  assert (Hp : forall e, keeps f (print e))
    by (intros e; apply keeps_modify; intros w; apply Ho).
  assert (Hu : forall g, keeps f (update this g))
    by (intros g; by apply keeps_update).
  apply keeps_bind; [apply Hu|]. intros _.
  apply keeps_bind; [apply keeps_deref|]. intros t.
  destruct (_fname t) as [fname|]; [|by intros w].
  apply keeps_bind; [apply keeps_get|]. intros i.
  destruct (Ios.fail i); [apply Hp|].
  apply keeps_bind; [apply Hu|]. intros _.
  apply keeps_bind; [apply keeps_get|]. intros now.
  apply keeps_bind; [apply Hu|]. intros _.
  apply keeps_bind; [apply keeps_deref|]. intros t'.
  destruct (read_loop fuel _) as [st|]; [|by intros w].
  apply keeps_bind; [apply Hu|]. intros _. apply Hp.
Qed.

Lemma keeps_Task_call {X} (f : World -> X) fuel self this :
  (forall o w, f (set_out o w) = f w) ->
  (forall t w, f (set_heap (<[this := t]> (heap w)) w) = f w) ->
  (forall v w, f (set_tasks (<[self := v]> (_tasks w)) w) = f w) ->
  (forall w, f (set_tasks (delete self (_tasks w)) w) = f w) ->
  keeps f (Task_call fuel self this).
Proof.
  intros Ho Hh Hi Hd. unfold Task_call.
  assert (Hp : forall e, keeps f (print e))
    by (intros e; apply keeps_modify; intros w; apply Ho).
  apply keeps_bind.
  { apply keeps_bind; [apply Hp|]. intros _. apply keeps_modify.
    intros w. apply Hi. }
  intros _. apply keeps_bind; [by apply keeps_Task_body|]. intros _.
  apply keeps_bind; [apply Hp|]. intros _. by apply keeps_modify.
Qed.

Lemma appends_bind {A B} (m : M A) (k : A -> M B) :
  appends m -> (forall a, appends (k a)) -> appends (m ≫= k).
Proof.
  intros Hm Hk w. unfold mbind, M_bind, bind.
  specialize (Hm w). destruct (m w) as [a w1|c w1|]; [|done..].
  destruct Hm as [more1 Hm]. specialize (Hk a w1).
  destruct (k a w1) as [b w2|c w2|]; [| |done];
    destruct Hk as [more2 Hk]; exists (more1 ++ more2);
    by rewrite Hk, Hm, <- app_assoc.
Qed.

Lemma appends_keeps {A} (m : M A) : keeps out m -> appends m.
Proof.
  intros H w. specialize (H w).
  destruct (m w); [| |done]; exists []; by rewrite app_nil_r.
Qed.

Lemma appends_print e : appends (print e).
Proof. intros w. by exists [e]. Qed.

Lemma appends_Task_call fuel self this : appends (Task_call fuel self this).
Proof.
  assert (Hu : forall g, appends (update this g))
    by (intros g; apply appends_keeps; by apply keeps_update).
  assert (Hm : forall g, (forall w, out (g w) = out w) -> appends (modify g))
    by (intros g Hg; apply appends_keeps; by apply keeps_modify).
  unfold Task_call, Task_body.
  apply appends_bind.
  { apply appends_bind; [apply appends_print|]. intros _. by apply Hm. }
  intros _. apply appends_bind.
  { apply appends_bind; [apply Hu|]. intros _.
    apply appends_bind; [apply appends_keeps, keeps_deref|]. intros t.
    destruct (_fname t) as [fname|]; [|intros w; exists []; by rewrite app_nil_r].
    apply appends_bind; [apply appends_keeps, keeps_get|]. intros i.
    destruct (Ios.fail i); [apply appends_print|].
    apply appends_bind; [apply Hu|]. intros _.
    apply appends_bind; [apply appends_keeps, keeps_get|]. intros now.
    apply appends_bind; [apply Hu|]. intros _.
    apply appends_bind; [apply appends_keeps, keeps_deref|]. intros t'.
    destruct (read_loop fuel _) as [st|]; [|by intros w].
    apply appends_bind; [apply Hu|]. intros _. apply appends_print. }
  intros _. apply appends_bind; [apply appends_print|]. intros _. by apply Hm.
Qed.

(** X1: the registry entry of a run is scoped. When [Task::operator()]
    returns, on either path, the calling thread has no entry and the
    entries of other threads are as before; when it crashes (no destructor
    runs) the entry made on entry is still there. *)
Theorem Task_call_registry_scoped fuel self this w :
  match Task_call fuel self this w with
  | Ok _ w' => _tasks w' = delete self (_tasks w)
  | Crashed _ w' => _tasks w' = <[self := this]> (_tasks w)
  | OutOfFuel => True
  end.
Proof.
  unfold Task_call.
  erewrite bind_Ok; [|reflexivity].
  set (w1 := set_tasks _ _).
  unfold mbind, M_bind, bind.
  pose proof (keeps_Task_body _tasks fuel self this
                ltac:(done) ltac:(done) w1) as Hb.
  destruct (Task_body fuel self this w1) as [[] w2|c w2|]; [| done | done].
  simpl. rewrite Hb. simpl. apply delete_insert_eq.
Qed.

(** X2: a task whose file name is NULL fails the assertion after it has
    registered and stored its thread id: the process stops with the task
    still in the registry and nothing printed but the registration. *)
Theorem Task_call_null_fname fuel self this w t :
  heap w !! this = Some t ->
  _fname t = None ->
  Task_call fuel self this w =
    Crashed AssertFailed
      (set_heap (<[this := set_tid self t]> (heap w))
         (set_tasks (<[self := this]> (_tasks w))
            (set_out (out w ++ [RegisterThread self]) w))).
Proof.
  intros Hh Hf. unfold Task_call.
  erewrite bind_Ok; [|reflexivity].
  unfold Task_body.
  erewrite bind_Crashed; [reflexivity|].
  erewrite bind_Ok; [|by apply update_Ok].
  erewrite bind_Ok; [|apply deref_Ok; simpl; apply lookup_insert_eq].
  simpl (_fname _). rewrite Hf. reflexivity.
Qed.

Lemma Task_call_null_fname_witness :
  Task_call 1 1%N 7%N null_fname_world =
    Crashed AssertFailed
      (set_heap (<[7%N := set_tid 1%N (mkTask None 0%N 0 0 ∅)]>
                   (heap null_fname_world))
         (set_tasks (<[1%N := 7%N]> (_tasks null_fname_world))
            (set_out (out null_fname_world ++ [RegisterThread 1%N])
               null_fname_world))).
Proof.
  apply (Task_call_null_fname 1 1%N 7%N null_fname_world
           (mkTask None 0%N 0 0 ∅)); reflexivity.
Defined.

(** X3: a run, whether it returns or crashes, changes nothing but the
    object of its task, the registry entry of its thread and the console
    output, to which it only appends: files, the other task objects, the
    entries of other threads, the cancellation requests and the two
    variables of the signal-handling thread are as before. *)
Theorem Task_call_frame fuel self this w :
  match Task_call fuel self this w with
  | Ok _ w' | Crashed _ w' =>
      fs w' = fs w /\ threads w' = threads w /\
      cancel_pending w' = cancel_pending w /\
      cancel_calls w' = cancel_calls w /\
      running w' = running w /\
      sig_num w' = sig_num w /\
      (forall q, q <> this -> heap w' !! q = heap w !! q) /\
      (forall tid, tid <> self -> _tasks w' !! tid = _tasks w !! tid) /\
      exists more, out w' = out w ++ more
  | OutOfFuel => True
  end.
Proof.
  pose proof (keeps_Task_call fs fuel self this
    ltac:(done) ltac:(done) ltac:(done) ltac:(done) w) as H1.
  pose proof (keeps_Task_call threads fuel self this
    ltac:(done) ltac:(done) ltac:(done) ltac:(done) w) as H2.
  pose proof (keeps_Task_call cancel_pending fuel self this
    ltac:(done) ltac:(done) ltac:(done) ltac:(done) w) as H3.
  pose proof (keeps_Task_call cancel_calls fuel self this
    ltac:(done) ltac:(done) ltac:(done) ltac:(done) w) as H4.
  pose proof (keeps_Task_call running fuel self this
    ltac:(done) ltac:(done) ltac:(done) ltac:(done) w) as H6.
  pose proof (keeps_Task_call sig_num fuel self this
    ltac:(done) ltac:(done) ltac:(done) ltac:(done) w) as H7.
  assert (H8 : forall q, q <> this ->
            match Task_call fuel self this w with
            | Ok _ w' | Crashed _ w' => heap w' !! q = heap w !! q
            | OutOfFuel => True
            end).
  { intros q Hq.
    apply (keeps_Task_call (fun w => heap w !! q) fuel self this);
      [done | | done | done].
    intros t0 w0. simpl. by apply lookup_insert_ne. }
  assert (H9 : forall tid, tid <> self ->
            match Task_call fuel self this w with
            | Ok _ w' | Crashed _ w' => _tasks w' !! tid = _tasks w !! tid
            | OutOfFuel => True
            end).
  { intros tid Htid.
    apply (keeps_Task_call (fun w => _tasks w !! tid) fuel self this);
      [done | done | |].
    - intros v w0. simpl. by apply lookup_insert_ne.
    - intros w0. simpl. by apply lookup_delete_ne. }
  pose proof (appends_Task_call fuel self this w) as H10.
  destruct (Task_call fuel self this w) as [a w'|c w'|]; [| |done];
    (split_and!; [done..| intros q Hq; by apply H8
                        | intros tid Ht; by apply H9 | done]).
Qed.

(* ===================================================================== *)
(** ** What the counters hold after a run *)
(* ===================================================================== *)

Lemma count_words_app ws1 ws2 wc :
  count_words (ws1 ++ ws2) wc = count_words ws2 (count_words ws1 wc).
Proof. apply foldl_app. Qed.

Lemma reference_counts_file_words contents wc :
  reference_counts contents wc = count_words (file_words contents) wc.
Proof.
  unfold reference_counts, file_words.
  generalize (nonempty_lines contents). intros ls. revert wc.
  induction ls as [|l ls IH]; intros wc; [done|].
  simpl. by rewrite count_words_app, IH.
Qed.

Lemma count_word_value x w wc :
  default 0 (count_word x wc !! w) =
    if decide (x = w) then (default 0 (wc !! w) + 1) mod uint32_max
    else default 0 (wc !! w).
Proof.
  unfold count_word. destruct (decide (x = w)) as [->|Hne].
  - by rewrite lookup_insert_eq.
  - by rewrite lookup_insert_ne.
Qed.

Lemma occurrences_cons w x ws :
  occurrences w (x :: ws) =
    if decide (x = w) then S (occurrences w ws) else occurrences w ws.
Proof.
  unfold occurrences. destruct (decide (x = w)) as [Heq|Hne].
  - by rewrite filter_cons_True.
  - by rewrite filter_cons_False.
Qed.

(** The counter of a word after counting a list of pieces. *)
Lemma count_words_value ws wc w :
  default 0 (count_words ws wc !! w) =
    if decide (occurrences w ws = 0%nat) then default 0 (wc !! w)
    else (default 0 (wc !! w) + Z.of_nat (occurrences w ws)) mod uint32_max.
Proof.
  revert wc. induction ws as [|x ws IH]; intros wc; [done|].
  change (count_words (x :: ws) wc) with (count_words ws (count_word x wc)).
  rewrite IH, count_word_value, occurrences_cons.
  destruct (decide (x = w)) as [Heq|Hne]; [|done].
  rewrite (decide_False (P := S (occurrences w ws) = 0%nat)) by done.
  destruct (decide (occurrences w ws = 0%nat)) as [->|Hocc].
  - done.
  - rewrite Zplus_mod_idemp_l. f_equal. lia.
Qed.

Lemma count_words_None ws wc w :
  count_words ws wc !! w = None <-> wc !! w = None /\ w ∉ ws.
Proof.
  revert wc. induction ws as [|x ws IH]; intros wc.
  - simpl. split; [|by intros []]. intros H. split; [done|]. by intros ?%elem_of_nil.
  - change (count_words (x :: ws) wc) with (count_words ws (count_word x wc)).
    rewrite IH, not_elem_of_cons. unfold count_word.
    destruct (decide (x = w)) as [->|Hne].
    + rewrite lookup_insert_eq. split; [by intros []|]. by intros [_ []].
    + rewrite lookup_insert_ne by done. intuition congruence.
Qed.

Lemma words_total_range wc : 0 <= words_total wc < uint32_max.
Proof.
  unfold words_total.
  apply (map_fold_weak_ind (fun r _ => 0 <= r < uint32_max)).
  - unfold uint32_max. lia.
  - intros i x m r _ _. apply Z.mod_pos_bound. unfold uint32_max. lia.
Qed.

Lemma words_total_step_comm (z1 z2 y : Z) :
  (((y + z2) mod uint32_max) + z1) mod uint32_max =
  (((y + z1) mod uint32_max) + z2) mod uint32_max.
Proof. rewrite !Zplus_mod_idemp_l. f_equal. lia. Qed.

Lemma words_total_insert w v wc :
  words_total (<[w := v]> wc) =
    (words_total (delete w wc) + v) mod uint32_max.
Proof.
  rewrite <- insert_delete_eq. unfold words_total.
  rewrite map_fold_insert_L; [done | | apply lookup_delete_eq].
  intros. apply words_total_step_comm.
Qed.

Lemma words_total_delete w n wc :
  wc !! w = Some n ->
  words_total wc = (words_total (delete w wc) + n) mod uint32_max.
Proof.
  intros H. unfold words_total.
  rewrite (map_fold_delete_L _ _ w n wc); [done | | done].
  intros. apply words_total_step_comm.
Qed.

(** Counting one more word adds one to the 32-bit total. *)
Lemma words_total_count_word w wc :
  words_total (count_word w wc) = (words_total wc + 1) mod uint32_max.
Proof.
  unfold count_word. rewrite words_total_insert.
  destruct (wc !! w) as [n|] eqn:E; simpl.
  - rewrite (words_total_delete w n wc E).
    rewrite Zplus_mod_idemp_r, Zplus_mod_idemp_l. f_equal. lia.
  - rewrite delete_id by done. by rewrite Zplus_mod_idemp_r.
Qed.

Lemma words_total_count_words ws wc :
  words_total (count_words ws wc) =
    (words_total wc + Z.of_nat (List.length ws)) mod uint32_max.
Proof.
  revert wc. induction ws as [|x ws IH]; intros wc.
  - simpl. rewrite Z.add_0_r, Z.mod_small; [done | apply words_total_range].
  - change (count_words (x :: ws) wc) with (count_words ws (count_word x wc)).
    rewrite IH, words_total_count_word, Zplus_mod_idemp_l.
    f_equal. simpl List.length. lia.
Qed.

(** X4: the summary of a run. A task that has counted nothing yet, run on
    a readable file, reports the number of non-empty lines (modulo 2^64)
    and the number of pieces counted over all lines (modulo 2^32). *)
Theorem Task_call_summary fuel self this w t fname contents :
  heap w !! this = Some t ->
  _fname t = Some fname ->
  fs w !! fname = Some contents ->
  _word_counters t = ∅ ->
  (String.length contents + 2 <= fuel)%nat ->
  exists w',
    Task_call fuel self this w = Ok tt w' /\
    out w' = out w ++
      [RegisterThread self;
       TaskFinished self
         (Z.of_nat (List.length (nonempty_lines contents)) mod size_max)
         (Z.of_nat (List.length (file_words contents)) mod uint32_max);
       UnregisterThread self].
Proof.
  intros Hh Hf Hfs Hwc Hn. eexists. split.
  - by apply (Task_call_readable _ _ _ _ t fname contents).
  - simpl. do 3 f_equal. f_equal.
    + unfold Task_result. rewrite process_lines_line_count; [done|].
      simpl. unfold size_max. lia.
    + unfold Task_result. rewrite process_lines_counters. simpl. rewrite Hwc.
      fold (reference_counts contents ∅).
      rewrite reference_counts_file_words, words_total_count_words.
      unfold words_total. by rewrite map_fold_empty.
Qed.

Lemma Task_call_summary_witness :
  exists w',
    Task_call 6 1%N 100%N example_world = Ok tt w' /\
    out w' = out example_world ++
      [RegisterThread 1%N;
       TaskFinished 1%N
         (Z.of_nat (List.length (nonempty_lines two_lines)) mod size_max)
         (Z.of_nat (List.length (file_words two_lines)) mod uint32_max);
       UnregisterThread 1%N].
Proof.
  apply (Task_call_summary 6 1%N 100%N example_world (fresh_task "two")
           "two"%string two_lines); vm_compute; (reflexivity || lia).
Defined.

Lemma occurrences_le w ws : (occurrences w ws <= List.length ws)%nat.
Proof. apply length_filter. Qed.

Lemma occurrences_zero w ws : occurrences w ws = 0%nat <-> w ∉ ws.
Proof.
  induction ws as [|x ws IH]; [by split; [intros _ ?%elem_of_nil|]|].
  rewrite occurrences_cons, not_elem_of_cons.
  destruct (decide (x = w)) as [->|Hne]; [split; [done|by intros []]|].
  rewrite IH. intuition congruence.
Qed.

(** X5: the counter of every word. After the run of a task that has
    counted nothing yet, the counter of a word is its number of occurrences
    among the pieces of the file, modulo 2^32 (exactly that number when the
    file has fewer than 2^32 pieces), and the words without an entry are
    those that do not occur. *)
Theorem Task_call_word_counter fuel self this w t fname contents :
  heap w !! this = Some t ->
  _fname t = Some fname ->
  fs w !! fname = Some contents ->
  _word_counters t = ∅ ->
  (String.length contents + 2 <= fuel)%nat ->
  exists w' tf,
    Task_call fuel self this w = Ok tt w' /\
    heap w' !! this = Some tf /\
    forall word,
      default 0 (_word_counters tf !! word) =
        Z.of_nat (occurrences word (file_words contents)) mod uint32_max /\
      (Z.of_nat (List.length (file_words contents)) < uint32_max ->
       default 0 (_word_counters tf !! word) =
         Z.of_nat (occurrences word (file_words contents))) /\
      (_word_counters tf !! word = None <-> word ∉ file_words contents).
Proof.
  intros Hh Hf Hfs Hwc Hn. eexists _, _. split_and!.
  - by apply (Task_call_readable _ _ _ _ t fname contents).
  - simpl. apply lookup_insert_eq.
  - intros word. unfold Task_result. rewrite process_lines_counters.
    simpl. rewrite Hwc. fold (reference_counts contents ∅).
    rewrite reference_counts_file_words.
    assert (Hval : default 0 (count_words (file_words contents) ∅ !! word) =
              Z.of_nat (occurrences word (file_words contents))
                mod uint32_max).
    { rewrite count_words_value, lookup_empty. simpl.
      destruct (decide _) as [->|_]; done. }
    split_and!.
    + done.
    + intros Hsmall. rewrite Hval. apply Z.mod_small.
      pose proof (occurrences_le word (file_words contents)). lia.
    + rewrite count_words_None, lookup_empty. intuition.
Qed.

Lemma Task_call_word_counter_witness :
  exists w' tf,
    Task_call 6 1%N 100%N example_world = Ok tt w' /\
    heap w' !! 100%N = Some tf /\
    forall word,
      default 0 (_word_counters tf !! word) =
        Z.of_nat (occurrences word (file_words two_lines)) mod uint32_max /\
      (Z.of_nat (List.length (file_words two_lines)) < uint32_max ->
       default 0 (_word_counters tf !! word) =
         Z.of_nat (occurrences word (file_words two_lines))) /\
      (_word_counters tf !! word = None <-> word ∉ file_words two_lines).
Proof.
  apply (Task_call_word_counter 6 1%N 100%N example_world (fresh_task "two")
           "two"%string two_lines); vm_compute; (reflexivity || lia).
Defined.

Lemma has_char_app c (s1 s2 : string) :
  has_char c (s1 ++ s2) = has_char c s1 || has_char c s2.
Proof.
  induction s1 as [|a s1 IH]; [reflexivity|].
  change (has_char c (String a (s1 ++ s2)) =
          has_char c (String a s1) || has_char c s2).
  simpl. by rewrite IH, orb_assoc.
Qed.

(** The pieces of a split hold no delimiter, and no character that the
    text split did not hold. *)
Lemma split_at_pieces d cur s p :
  p ∈ split_at d cur s ->
  (has_char d cur = false -> has_char d p = false) /\
  (forall c, has_char c p = true ->
             has_char c cur = true \/ has_char c s = true).
Proof.
  revert cur. induction s as [|a r IH]; intros cur; simpl.
  - destruct (Ios.is_empty cur); [by intros ?%elem_of_nil|].
    intros ->%list_elem_of_singleton. split; [done | by left].
  - destruct (Ascii.eqb a d) eqn:Ead.
    + intros [->|Hin]%elem_of_cons; [split; [done | by left]|].
      destruct (IH _ Hin) as [Hd Hc]. split; [by intros _; apply Hd|].
      intros c Hp. destruct (Hc c Hp) as [?|Hr]; [done|].
      right. by rewrite Hr, orb_true_r.
    + intros Hin. destruct (IH _ Hin) as [Hd Hc]. split.
      * intros Hcur. apply Hd. rewrite has_char_app, Hcur. simpl.
        by rewrite Ead.
      * intros c Hp. destruct (Hc c Hp) as [Hl|Hr].
        -- rewrite has_char_app in Hl. simpl in Hl.
           apply orb_true_iff in Hl as [?|Hl]; [by left|].
           right. rewrite orb_false_r in Hl. by rewrite Hl.
        -- right. by rewrite Hr, orb_true_r.
Qed.

Lemma elem_of_file_words w contents :
  w ∈ file_words contents ->
  exists l, l ∈ nonempty_lines contents /\ w ∈ split_at " " EmptyString l.
Proof.
  unfold file_words. generalize (nonempty_lines contents). intros ls.
  induction ls as [|l ls IH]; simpl; [by intros ?%elem_of_nil|].
  intros [Hin|Hin]%elem_of_app.
  - exists l. split; [by left | done].
  - destruct (IH Hin) as (l' & ? & ?). exists l'. split; [by right | done].
Qed.

Lemma file_words_no_delimiter w contents :
  w ∈ file_words contents ->
  has_char " " w = false /\ has_char "010" w = false.
Proof.
  intros (l & Hl & Hw)%elem_of_file_words.
  unfold nonempty_lines in Hl. apply list_elem_of_filter in Hl as [_ Hl].
  destruct (split_at_pieces _ _ _ _ Hl) as [Hnl _].
  destruct (split_at_pieces _ _ _ _ Hw) as [Hsp Hch].
  split; [by apply Hsp|].
  destruct (has_char "010" w) eqn:E; [|done].
  destruct (Hch _ E) as [?|Hin]; [done|].
  rewrite Hnl in Hin; done.
Qed.

(** X6: no counted word holds a space or a line feed. After the run of a
    task that has counted nothing yet, every word with a counter is free
    of both separators. *)
Theorem Task_call_words_clean fuel self this w t fname contents :
  heap w !! this = Some t ->
  _fname t = Some fname ->
  fs w !! fname = Some contents ->
  _word_counters t = ∅ ->
  (String.length contents + 2 <= fuel)%nat ->
  exists w' tf,
    Task_call fuel self this w = Ok tt w' /\
    heap w' !! this = Some tf /\
    forall word,
      is_Some (_word_counters tf !! word) ->
      has_char " " word = false /\ has_char "010" word = false.
Proof.
  intros Hh Hf Hfs Hwc Hn. eexists _, _. split_and!.
  - by apply (Task_call_readable _ _ _ _ t fname contents).
  - simpl. apply lookup_insert_eq.
  - intros word Hsome. apply (file_words_no_delimiter _ contents).
    destruct (decide (word ∈ file_words contents)) as [|Hnot]; [done|].
    exfalso. revert Hsome. unfold Task_result.
    rewrite process_lines_counters. simpl. rewrite Hwc.
    fold (reference_counts contents ∅). rewrite reference_counts_file_words.
    assert (HN : count_words (file_words contents) ∅ !! word = None)
      by (apply count_words_None; split; [apply lookup_empty | done]).
    rewrite HN. by intros [? ?].
Qed.

Lemma Task_call_words_clean_witness :
  exists w' tf,
    Task_call 6 1%N 100%N example_world = Ok tt w' /\
    heap w' !! 100%N = Some tf /\
    forall word,
      is_Some (_word_counters tf !! word) ->
      has_char " " word = false /\ has_char "010" word = false.
Proof.
  apply (Task_call_words_clean 6 1%N 100%N example_world (fresh_task "two")
           "two"%string two_lines); vm_compute; (reflexivity || lia).
Defined.

Lemma split_at_final_delimiter d cur s :
  filter nonempty (split_at d cur (s ++ String d EmptyString)) =
  filter nonempty (split_at d cur s).
Proof.
  revert cur. induction s as [|a r IH]; intros cur.
  - change (EmptyString ++ String d EmptyString)%string
      with (String d EmptyString).
    simpl. rewrite Ascii.eqb_refl.
    destruct (Ios.is_empty cur) eqn:E; [|done].
    by rewrite filter_cons_False by (unfold nonempty; congruence).
  - change (String a r ++ String d EmptyString)%string
      with (String a (r ++ String d EmptyString)).
    simpl. destruct (Ascii.eqb a d).
    + destruct (decide (nonempty cur)).
      * rewrite !filter_cons_True by done. by rewrite IH.
      * rewrite !filter_cons_False by done. by rewrite IH.
    + apply IH.
Qed.

Lemma length_append_char (s : string) c :
  String.length (s ++ String c EmptyString) = S (String.length s).
Proof.
  induction s as [|a s IH]; [reflexivity|].
  change (S (String.length (s ++ String c EmptyString)) =
          S (S (String.length s))).
  by rewrite IH.
Qed.

(** X7: a line feed at the very end of the file changes nothing. The
    line-reading loop leaves the same task object for a file and for the
    same file followed by one more line feed. *)
Theorem read_loop_final_line_feed fuel contents ln t :
  (String.length contents + 3 <= fuel)%nat ->
  task <$> read_loop fuel
             (mkLoop (Ios.of_string (contents ++ String "010" EmptyString))
                     ln t)
  = task <$> read_loop fuel (mkLoop (Ios.of_string contents) ln t).
Proof.
  intros Hn.
  destruct (read_loop_file fuel contents ln t) as (st1 & -> & _ & H1); [lia|].
  destruct (read_loop_file fuel (contents ++ String "010" EmptyString) ln t)
    as (st2 & -> & _ & H2); [rewrite length_append_char; lia|].
  simpl. f_equal. rewrite H1, H2. unfold nonempty_lines.
  by rewrite split_at_final_delimiter.
Qed.

Lemma read_loop_final_line_feed_witness :
  task <$> read_loop 7
             (mkLoop (Ios.of_string (two_lines ++ String "010" EmptyString))
                     EmptyString (fresh_task "two"))
  = task <$> read_loop 7 (mkLoop (Ios.of_string two_lines) EmptyString
                            (fresh_task "two")).
Proof.
  apply (read_loop_final_line_feed 7 two_lines EmptyString (fresh_task "two")).
  vm_compute. lia.
Defined.

(** X8: a task run twice keeps counting. The second run starts the line
    count again from 0 but does not clear the word counters: it leaves the
    line count of one run and the counters of the file counted twice. *)
Theorem Task_call_twice fuel self this w t fname contents :
  heap w !! this = Some t ->
  _fname t = Some fname ->
  fs w !! fname = Some contents ->
  (String.length contents + 2 <= fuel)%nat ->
  exists w2 tf,
    (Task_call fuel self this;; Task_call fuel self this) w = Ok tt w2 /\
    heap w2 !! this = Some tf /\
    _line_count tf =
      Z.of_nat (List.length (nonempty_lines contents)) mod size_max /\
    _word_counters tf =
      reference_counts contents (reference_counts contents (_word_counters t)).
Proof.
  intros Hh Hf Hfs Hn.
  pose proof (Task_call_readable fuel self this w t fname contents
                Hh Hf Hfs Hn) as H1. cbv zeta in H1.
  set (tf1 := Task_result self (ticks w) contents t) in *.
  set (w1 := set_tasks _ _) in H1.
  assert (Hf1 : _fname tf1 = Some fname).
  { unfold tf1, Task_result.
    destruct (process_lines_fields (nonempty_lines contents)
                (set_start (ticks w) (set_line_count 0 (set_tid self t))))
      as (-> & _). done. }
  pose proof (Task_call_readable fuel self this w1 tf1 fname contents
                ltac:(simpl; apply lookup_insert_eq) Hf1 Hfs Hn) as H2.
  cbv zeta in H2.
  eexists _, _. split_and!.
  - erewrite bind_Ok; [|exact H1]. exact H2.
  - simpl. apply lookup_insert_eq.
  - unfold Task_result. rewrite process_lines_line_count; [done|].
    simpl. unfold size_max. lia.
  - unfold Task_result at 1. rewrite process_lines_counters. simpl.
    unfold tf1, Task_result. rewrite process_lines_counters. done.
Qed.

Lemma Task_call_twice_witness :
  exists w2 tf,
    (Task_call 6 1%N 100%N;; Task_call 6 1%N 100%N) example_world
      = Ok tt w2 /\
    heap w2 !! 100%N = Some tf /\
    _line_count tf =
      Z.of_nat (List.length (nonempty_lines two_lines)) mod size_max /\
    _word_counters tf =
      reference_counts two_lines
        (reference_counts two_lines (_word_counters (fresh_task "two"))).
Proof.
  apply (Task_call_twice 6 1%N 100%N example_world (fresh_task "two")
           "two"%string two_lines); vm_compute; (reflexivity || lia).
Defined.

(* ===================================================================== *)
(** ** More on the registry *)
(* ===================================================================== *)

(** X9: registry entries do not nest. A registration followed by its
    unregistration leaves the calling thread without entry, which restores
    the table when the thread had none before; and when a thread registers
    a second task while the entry of a first one still stands, the end of
    the inner entry removes the thread from the table although the outer
    one has not ended. *)
Theorem registry_entries_do_not_nest w self p q :
  (exists w1,
     (TasksRegistry_ctor self p;; TasksRegistry_dtor self) w = Ok tt w1 /\
     _tasks w1 = delete self (_tasks w) /\
     (_tasks w !! self = None -> _tasks w1 = _tasks w)) /\
  (exists w2 snapshot,
     (TasksRegistry_ctor self p;; TasksRegistry_ctor self q;;
      TasksRegistry_dtor self) w = Ok tt w2 /\
     _tasks w2 !! self = None /\
     GetRunningTasks w2 = Ok snapshot w2 /\
     (p ∈ snapshot -> exists tid, tid <> self /\ _tasks w !! tid = Some p)).
Proof.
  split.
  - eexists. split_and!.
    + erewrite bind_Ok; reflexivity.
    + simpl. apply delete_insert_eq.
    + intros Hnone. simpl. rewrite delete_insert_eq. by apply delete_id.
  - eexists _, _. split_and!.
    + erewrite bind_Ok; [|reflexivity]. erewrite bind_Ok; reflexivity.
    + simpl. apply lookup_delete_eq.
    + reflexivity.
    + simpl. intros [_ [tid Hm]]%elem_of_running.
      exists tid. destruct (decide (tid = self)) as [->|Hne].
      * by rewrite lookup_delete_eq in Hm.
      * split; [done|].
        by rewrite lookup_delete_ne, !lookup_insert_ne in Hm.
Qed.

(** X10: unregistering a thread that has no entry changes nothing but the
    console output. *)
Theorem TasksRegistry_dtor_absent w self :
  _tasks w !! self = None ->
  TasksRegistry_dtor self w =
    Ok tt (set_out (out w ++ [UnregisterThread self]) w).
Proof.
  intros Hnone. unfold TasksRegistry_dtor.
  erewrite bind_Ok; [|reflexivity].
  unfold modify. simpl. rewrite delete_id by done. by destruct w.
Qed.

Lemma TasksRegistry_dtor_absent_witness :
  TasksRegistry_dtor 5%N example_world =
    Ok tt (set_out (out example_world ++ [UnregisterThread 5%N])
             example_world).
Proof. apply (TasksRegistry_dtor_absent example_world 5%N). reflexivity. Defined.

#[global] Instance by_tid_trans : Transitive by_tid.
Proof. intros a b c. unfold by_tid. lia. Qed.

Lemma push_running_entries es acc :
  push_running es acc = acc ++ (filter (fun e => e.2 <> NULL) es).*2.
Proof.
  revert acc. induction es as [|[tid p] es IH]; intros acc; simpl.
  - by rewrite app_nil_r.
  - rewrite IH. destruct (decide (p <> NULL)).
    + rewrite filter_cons_True by done. simpl. by rewrite <- app_assoc.
    + by rewrite filter_cons_False.
Qed.

Lemma strictly_sorted_tids (es : list (pthread_t * task_ptr)) :
  StronglySorted by_tid es -> NoDup es.*1 -> StronglySorted N.lt es.*1.
Proof.
  induction 1 as [|e es Hs IH Hall]; intros Hnd; simpl; [constructor|].
  apply NoDup_cons in Hnd as [Hnotin Hnd].
  constructor; [by apply IH|].
  apply Forall_fmap, Forall_forall. intros y Hy. simpl.
  rewrite Forall_forall in Hall. specialize (Hall y Hy). unfold by_tid in Hall.
  assert (e.1 <> y.1) by (intros Heq; apply Hnotin; rewrite Heq;
                          by apply list_elem_of_fmap_2).
  lia.
Qed.

Lemma strongly_sorted_sublist {A} (R : relation A) (l k : list A) :
  sublist l k -> StronglySorted R k -> StronglySorted R l.
Proof.
  induction 1 as [|x l k Hsub IH|x l k Hsub IH]; intros Hk.
  - constructor.
  - apply StronglySorted_inv in Hk as [Hk Hall].
    constructor; [by apply IH|].
    eapply Forall_forall. intros y Hy.
    rewrite Forall_forall in Hall. apply Hall.
    by eapply sublist_subseteq.
  - apply StronglySorted_inv in Hk as [Hk _]. by apply IH.
Qed.

(** X11: the order of the snapshot. [GetRunningTasks] lists the tasks of
    the non-null entries in strictly increasing order of the thread ids
    under which they are registered, one task per thread. *)
Theorem GetRunningTasks_ordered w :
  exists es : list (pthread_t * task_ptr),
    GetRunningTasks w = Ok es.*2 w /\
    StronglySorted N.lt es.*1 /\
    forall tid p, (tid, p) ∈ es <-> _tasks w !! tid = Some p /\ p <> NULL.
Proof.
  exists (filter (fun e => e.2 <> NULL) (entries (_tasks w))). split_and!.
  - unfold GetRunningTasks, get. by rewrite push_running_entries.
  - apply (strongly_sorted_sublist _ _ (entries (_tasks w)).*1).
    + apply fmap_sublist, sublist_filter.
    + apply strictly_sorted_tids.
      * apply StronglySorted_merge_sort; apply _.
      * unfold entries. rewrite merge_sort_Permutation.
        apply NoDup_fst_map_to_list.
  - intros tid p. rewrite list_elem_of_filter, elem_of_entries. simpl.
    tauto.
Qed.

(* ===================================================================== *)
(** ** More on the signal-handling thread *)
(* ===================================================================== *)

Lemma record_signals_frame sigs w :
  fs (record_signals sigs w) = fs w /\
  heap (record_signals sigs w) = heap w /\
  _tasks (record_signals sigs w) = _tasks w /\
  threads (record_signals sigs w) = threads w /\
  cancel_pending (record_signals sigs w) = cancel_pending w /\
  cancel_calls (record_signals sigs w) = cancel_calls w /\
  running (record_signals sigs w) = running w.
Proof.
  revert w. induction sigs as [|sig sigs IH]; intros w; [done|].
  simpl. by destruct (IH (record_signal sig w)) as (-> & -> & -> & -> & -> & -> & ->).
Qed.

Lemma record_signals_out sigs w :
  out (record_signals sigs w) = out w ++ (ReceivedSignal <$> sigs).
Proof.
  revert w. induction sigs as [|sig sigs IH]; intros w; simpl.
  - by rewrite app_nil_r.
  - rewrite IH. simpl. by rewrite <- app_assoc.
Qed.

Lemma default_last_cons {A} (d1 d2 x : A) l :
  default d1 (last (x :: l)) = default d2 (last (x :: l)).
Proof.
  revert x. induction l as [|y l IH]; intros x; [done|].
  change (last (x :: y :: l)) with (last (y :: l)). apply IH.
Qed.

Lemma default_last_step {A} (d x : A) l :
  default x (last l) = default d (last (x :: l)).
Proof.
  destruct l as [|y l]; [done|].
  change (last (x :: y :: l)) with (last (y :: l)). apply default_last_cons.
Qed.

Lemma record_signals_sig_num sigs w :
  sig_num (record_signals sigs w) = default (sig_num w) (last sigs).
Proof.
  revert w. induction sigs as [|sig sigs IH]; intros w; [done|].
  simpl. rewrite IH. simpl. apply default_last_step.
Qed.

(** The handler passes over benign results of [sigwait], recording each
    signal. *)
Lemma handler_skips_benign pre rest sn w :
  running w = true ->
  Forall benign pre ->
  sig_handle_worker_routine (pre ++ rest) sn false w =
    sig_handle_worker_routine rest (default sn (last pre.*2)) false
      (record_signals pre.*2 w).
Proof.
  intros Hrun Hall. revert sn w Hrun.
  induction Hall as [|[rc sig] pre [Hrc Hsig] _ IH]; intros sn w Hrun;
    [done|].
  simpl in Hrc, Hsig.
  change (((rc, sig) :: pre) ++ rest) with ((rc, sig) :: (pre ++ rest)).
  cbn [sig_handle_worker_routine].
  unfold mbind at 1, M_bind at 1, bind at 1, get at 1. rewrite Hrun.
  cbn [negb]. cbv iota.
  assert (Hlt : (rc <? 0) = false) by lia. rewrite Hlt.
  erewrite bind_Ok; [|reflexivity]. cbn [fst snd orb].
  unfold terminating in Hsig. rewrite Hsig.
  rewrite IH by done.
  change ((((rc, sig) :: pre).*2)) with (sig :: pre.*2).
  cbn [record_signals foldl]. fold (record_signals pre.*2).
  f_equal. apply default_last_step.
Qed.

(** X12: signals other than SIGINT, SIGABRT and SIGTERM never cancel a
    task. Through any series of successful [sigwait] calls that deliver
    other signals, the handler only stores and prints each signal: it
    makes no [pthread_cancel] call, leaves [::running] set and goes on
    waiting. *)
Theorem handler_ignores_other_signals sigwaits sn w :
  running w = true ->
  Forall benign sigwaits ->
  exists w',
    sig_handle_worker_routine sigwaits sn false w = Ok false w' /\
    out w' = out w ++ (ReceivedSignal <$> sigwaits.*2) /\
    sig_num w' = default (sig_num w) (last sigwaits.*2) /\
    running w' = true /\
    cancel_calls w' = cancel_calls w /\
    cancel_pending w' = cancel_pending w /\
    heap w' = heap w /\ _tasks w' = _tasks w.
Proof.
  intros Hrun Hall. exists (record_signals sigwaits.*2 w).
  destruct (record_signals_frame sigwaits.*2 w)
    as (_ & Hh & Ht & _ & Hp & Hc & Hr).
  split_and!; [|apply record_signals_out | apply record_signals_sig_num
               | congruence | done..].
  rewrite <- (app_nil_r sigwaits) at 1.
  rewrite handler_skips_benign by done.
  cbn [sig_handle_worker_routine].
  unfold mbind, M_bind, bind, get. by rewrite Hr, Hrun.
Qed.

Lemma handler_ignores_other_signals_witness :
  exists w',
    sig_handle_worker_routine [(0, 4); (0, 8)] 0 false example_world
      = Ok false w' /\
    out w' = out example_world ++ (ReceivedSignal <$> [(0, 4); (0, 8)].*2) /\
    sig_num w' = default (sig_num example_world) (last [(0, 4); (0, 8)].*2) /\
    running w' = true /\
    cancel_calls w' = cancel_calls example_world /\
    cancel_pending w' = cancel_pending example_world /\
    heap w' = heap example_world /\ _tasks w' = _tasks example_world.
Proof.
  apply (handler_ignores_other_signals [(0, 4); (0, 8)] 0 example_world).
  - reflexivity.
  - repeat constructor; simpl; lia.
Defined.

Lemma cancel_running_tasks_Ok w :
  live_registry w ->
  cancel_running_tasks w =
    Ok tt (cancel_all (tids_of (heap w) (push_running (entries (_tasks w)) []))
             (set_out (out w ++ [CancelRunningTasks]) w)).
Proof.
  intros Hlive. unfold cancel_running_tasks.
  erewrite bind_Ok; [|reflexivity].
  erewrite bind_Ok; [|reflexivity].
  apply (cancel_loop_Ok _ (set_out (out w ++ [CancelRunningTasks]) w)).
  apply Forall_forall. intros p [Hp [tid Hm]]%elem_of_running.
  by eapply Hlive.
Qed.

Lemma cancel_all_sig_num tids w : sig_num (cancel_all tids w) = sig_num w.
Proof.
  revert w. induction tids as [|x l IH]; intros w; [done|].
  simpl. rewrite IH. unfold cancel_one. by destruct (bool_decide _).
Qed.

Lemma handler_trigger_step rc sig rest sn w :
  running w = true ->
  live_registry w ->
  rc < 0 \/ terminating sig = true ->
  let w2 := if rc <? 0 then set_out (out w ++ [SigwaitError]) w
            else record_signal sig w in
  sig_handle_worker_routine ((rc, sig) :: rest) sn false w =
    Ok true
       (set_running false
          (cancel_all
             (tids_of (heap w) (push_running (entries (_tasks w)) []))
             (set_out (out w2 ++ [CancelRunningTasks]) w2))).
Proof.
  intros Hrun Hlive Htrig w2.
  cbn [sig_handle_worker_routine].
  unfold mbind at 1, M_bind at 1, bind at 1, get at 1. rewrite Hrun.
  cbn [negb]. cbv iota.
  assert (Hlive2 : live_registry w2)
    by (unfold w2; destruct (rc <? 0); exact Hlive).
  assert (Hh : heap w2 = heap w) by (unfold w2; by destruct (rc <? 0)).
  assert (Ht : _tasks w2 = _tasks w) by (unfold w2; by destruct (rc <? 0)).
  pose proof (cancel_running_tasks_Ok w2 Hlive2) as Hc.
  rewrite Hh, Ht in Hc.
  destruct (rc <? 0) eqn:Hlt.
  - erewrite bind_Ok; [|reflexivity]. cbn [fst snd orb].
    erewrite bind_Ok; [|exact Hc]. reflexivity.
  - assert (Hsig : terminating sig = true) by (destruct Htrig; [lia | done]).
    erewrite bind_Ok; [|reflexivity]. cbn [fst snd orb].
    unfold terminating in Hsig. rewrite Hsig.
    erewrite bind_Ok; [|exact Hc]. reflexivity.
Qed.

(** X13: what the handler does on a terminating signal. After any series
    of [sigwait] results that do not trigger it, a successful [sigwait]
    that delivers SIGINT, SIGABRT or SIGTERM makes the handler store and
    print the signal, call [pthread_cancel] once for every task of the
    registry, log the calls that failed, clear [::running] and end; what
    [sigwait] would deliver later is never looked at. *)
Theorem handler_cancels_on_trigger pre sig rest sn w :
  running w = true ->
  live_registry w ->
  Forall benign pre ->
  terminating sig = true ->
  exists snapshot tids w',
    GetRunningTasks w = Ok snapshot w /\
    Forall2 (fun p tid => _tid <$> heap w !! p = Some tid) snapshot tids /\
    sig_handle_worker_routine (pre ++ (0, sig) :: rest) sn false w
      = Ok true w' /\
    running w' = false /\
    sig_num w' = sig /\
    cancel_calls w' = cancel_calls w ++ tids /\
    out w' = out w ++ (ReceivedSignal <$> pre.*2) ++
               ReceivedSignal sig :: CancelRunningTasks ::
               (CancelFailed <$> filter (fun tid => tid ∉ threads w) tids) /\
    cancel_pending w' =
      cancel_pending w ∪
        list_to_set (filter (fun tid => tid ∈ threads w) tids).
Proof.
  intros Hrun Hlive Hpre Htrig.
  set (w1 := record_signals pre.*2 w).
  destruct (record_signals_frame pre.*2 w)
    as (_ & Hh & Ht & Hth & Hp & Hc & Hr). fold w1 in Hh, Ht, Hth, Hp, Hc, Hr.
  assert (Hlive1 : live_registry w1)
    by (intros tid p; rewrite Hh, Ht; apply Hlive).
  pose proof (handler_trigger_step 0 sig rest
                (default sn (last pre.*2)) w1
                ltac:(congruence) Hlive1 (or_intror Htrig)) as Hstep.
  cbv zeta in Hstep. rewrite Hh, Ht in Hstep.
  change (0 <? 0) with false in Hstep. cbv iota in Hstep.
  set (snapshot := push_running (entries (_tasks w)) []) in *.
  set (tids := tids_of (heap w) snapshot) in *.
  exists snapshot, tids. eexists. split_and!.
  - reflexivity.
  - apply tids_of_live. apply Forall_forall.
    intros p [Hp' [tid Hm]]%elem_of_running. by eapply Hlive.
  - rewrite handler_skips_benign by done. exact Hstep.
  - reflexivity.
  - simpl. by rewrite cancel_all_sig_num.
  - simpl. rewrite cancel_all_calls. simpl. by rewrite Hc.
  - simpl. rewrite cancel_all_out. simpl. rewrite Hth.
    unfold w1. rewrite record_signals_out. by rewrite <- !app_assoc.
  - simpl. rewrite cancel_all_pending. simpl. by rewrite Hp, Hth.
Qed.

Lemma handler_cancels_on_trigger_witness :
  exists snapshot tids w',
    GetRunningTasks rerun_world = Ok snapshot rerun_world /\
    Forall2 (fun p tid => _tid <$> heap rerun_world !! p = Some tid)
            snapshot tids /\
    sig_handle_worker_routine ([(0, 4)] ++ (0, 15) :: [(0, 2)]) 0 false
      rerun_world = Ok true w' /\
    running w' = false /\
    sig_num w' = 15 /\
    cancel_calls w' = cancel_calls rerun_world ++ tids /\
    out w' = out rerun_world ++ (ReceivedSignal <$> [(0, 4)].*2) ++
               ReceivedSignal 15 :: CancelRunningTasks ::
               (CancelFailed <$>
                  filter (fun tid => tid ∉ threads rerun_world) tids) /\
    cancel_pending w' =
      cancel_pending rerun_world ∪
        list_to_set (filter (fun tid => tid ∈ threads rerun_world) tids).
Proof.
  apply (handler_cancels_on_trigger [(0, 4)] 15 [(0, 2)] 0 rerun_world).
  - reflexivity.
  - intros tid p Hm _. unfold rerun_world in Hm; simpl in Hm.
    apply lookup_singleton_Some in Hm as [_ <-]. by eexists.
  - repeat constructor; simpl; lia.
  - reflexivity.
Defined.

Lemma cancel_one_pending tid w :
  (forall x, x ∈ cancel_pending w -> x ∈ cancel_pending (cancel_one tid w)) /\
  (forall x, x ∈ cancel_pending (cancel_one tid w) ->
             x ∈ cancel_pending w \/ x ∈ threads w).
Proof.
  unfold cancel_one. case_bool_decide as Hin; simpl; split; intros x Hx.
  - apply elem_of_union. by left.
  - apply elem_of_union in Hx as [?|Hx]; [by left|].
    apply elem_of_singleton in Hx as ->. by right.
  - done.
  - by left.
Qed.

Lemma cancel_loop_bounds tasks w :
  match cancel_loop tasks w with
  | Ok _ w' =>
      fs w' = fs w /\ threads w' = threads w /\ running w' = running w /\
      (forall x, x ∈ cancel_pending w -> x ∈ cancel_pending w') /\
      (forall x, x ∈ cancel_pending w' ->
                 x ∈ cancel_pending w \/ x ∈ threads w)
  | _ => True
  end.
Proof.
  revert w. induction tasks as [|p tasks IH]; intros w; simpl.
  - split_and!; [done..| by left].
  - unfold mbind at 1, M_bind at 1, bind at 1, deref.
    destruct (heap w !! p) as [t|]; [|done].
    rewrite cancel_pass. specialize (IH (cancel_one (_tid t) w)).
    destruct (cancel_one_frame (_tid t) w) as (Hfs & _ & _ & Hth & Hr).
    destruct (cancel_one_pending (_tid t) w) as [Hup Hlow].
    destruct (cancel_loop tasks (cancel_one (_tid t) w)) as [a w'| |]; [|done..].
    destruct IH as (-> & -> & -> & Hup' & Hlow').
    split_and!; [done..| |].
    + intros x Hx. by apply Hup', Hup.
    + intros x Hx. destruct (Hlow' x Hx) as [Hx'|Hx'].
      * by apply Hlow.
      * right. by rewrite <- Hth.
Qed.

(** X14: what the handler never does. However [sigwait] answers, the
    signal-handling thread changes no file, no task object and no registry
    entry; it marks threads for cancellation only among those the thread
    library knows and clears no mark; when it ends, [::running] is false;
    and as long as it goes on waiting it has made no [pthread_cancel]
    call. A crash (a registry pointer to no live object) leaves the task
    objects and the registry as they were. *)
Theorem handler_never sigwaits sn em w :
  match sig_handle_worker_routine sigwaits sn em w with
  | Ok b w' =>
      fs w' = fs w /\ heap w' = heap w /\ _tasks w' = _tasks w /\
      threads w' = threads w /\
      (forall x, x ∈ cancel_pending w -> x ∈ cancel_pending w') /\
      (forall x, x ∈ cancel_pending w' ->
                 x ∈ cancel_pending w \/ x ∈ threads w) /\
      (b = true -> running w' = false) /\
      (b = false -> running w' = true /\ cancel_calls w' = cancel_calls w /\
                    cancel_pending w' = cancel_pending w)
  | Crashed _ w' => heap w' = heap w /\ _tasks w' = _tasks w
  | OutOfFuel => False
  end.
Proof.
  revert sn em w. induction sigwaits as [|[rc sig] rest IH]; intros sn em w;
    cbn [sig_handle_worker_routine];
    unfold mbind at 1, M_bind at 1, bind at 1, get at 1;
    destruct (running w) eqn:Hrun; cbn [negb]; cbv iota.
  - split_and!; try done. by left.
  - split_and!; try done. by left.
  - set (s := if rc <? 0 then (sn, true) else (sig, em)).
    set (w2 := if rc <? 0 then set_out (out w ++ [SigwaitError]) w
               else record_signal sig w).
    assert (Hbind : forall k : Z * bool -> M bool,
              ((if rc <? 0 then print SigwaitError;; ret (sn, true)
                else modify (set_sig_num sig);; print (ReceivedSignal sig);;
                     ret (sig, em)) ≫= k) w = k s w2)
      by (intros k; unfold s, w2; by destruct (rc <? 0)).
    rewrite Hbind. clear Hbind.
    assert (Hw2 : fs w2 = fs w /\ heap w2 = heap w /\ _tasks w2 = _tasks w /\
                  threads w2 = threads w /\
                  cancel_pending w2 = cancel_pending w /\
                  cancel_calls w2 = cancel_calls w /\ running w2 = true)
      by (unfold w2; by destruct (rc <? 0)).
    destruct Hw2 as (Hfs & Hh & Ht & Hth & Hp & Hc & Hr).
    destruct (_ || _).
    + unfold cancel_running_tasks.
      unfold mbind at 1, M_bind at 1, bind at 1.
      erewrite bind_Ok; [|reflexivity].
      unfold mbind at 1, M_bind at 1, bind at 1, GetRunningTasks, get at 1.
      set (w3 := set_out _ w2). set (tasks := push_running _ _).
      pose proof (cancel_loop_frame tasks w3) as Hfr.
      pose proof (cancel_loop_bounds tasks w3) as Hb.
      destruct (cancel_loop tasks w3) as [a w'|c w'|]; [| |done].
      * destruct Hfr as [Hh' Ht']. destruct Hb as (Hfs' & Hth' & _ & Hup & Hlow).
        simpl. rewrite Hfs', Hh', Ht', Hth'. simpl.
        split_and!; try done; try congruence.
        -- intros x Hx. apply Hup. simpl. by rewrite Hp.
        -- intros x Hx. destruct (Hlow x Hx) as [Hx'|Hx']; simpl in Hx'.
           ++ left. by rewrite <- Hp.
           ++ right. by rewrite <- Hth.
      * destruct Hfr as [Hh' Ht']. simpl in Hh', Ht'. split; congruence.
    + specialize (IH s.1 s.2 w2).
      destruct (sig_handle_worker_routine rest s.1 s.2 w2) as [b w'|c w'|];
        [| |done].
      * destruct IH as (-> & -> & -> & -> & Hup & Hlow & Htrue & Hfalse).
        split_and!; try done.
        -- intros x Hx. apply Hup. by rewrite Hp.
        -- intros x Hx. destruct (Hlow x Hx) as [Hx'|Hx'].
           ++ left. by rewrite <- Hp.
           ++ right. by rewrite <- Hth.
        -- intros Hb. destruct (Hfalse Hb) as (? & ? & ?).
           split_and!; congruence.
      * destruct IH as [-> ->]. done.
  - split_and!; try done. by left.
Qed.

Lemma filter_unknown_nil (known : gset pthread_t) tids :
  Forall (fun tid => tid ∈ known) tids ->
  filter (fun tid => tid ∉ known) tids = [].
Proof.
  induction 1 as [|tid tids Hin _ IH]; [done|].
  rewrite filter_cons_False by (intros H; by apply H). exact IH.
Qed.

(** X15: a request made before the task has stored its thread id. The
    registration is the first statement of [Task::operator()] and the
    assignment of [_tid] the second. When the monitor walks the registry
    between the two, every thread id it reads being the id of a thread the
    thread library knows, its request for the task goes to the thread
    whose id the object held before. The thread that registered the task
    is marked only if it was marked already or if some object held its id
    before. *)
Theorem cancel_before_tid_is_set w self this t :
  heap w !! this = Some t ->
  this <> NULL ->
  live_registry w ->
  _tid t ∈ threads w ->
  (forall tid p t',
     _tasks w !! tid = Some p -> heap w !! p = Some t' ->
     _tid t' ∈ threads w) ->
  exists snapshot tids w',
    (TasksRegistry_ctor self this;; cancel_running_tasks) w = Ok tt w' /\
    this ∈ snapshot /\
    Forall2 (fun p tid => _tid <$> heap w !! p = Some tid) snapshot tids /\
    cancel_calls w' = cancel_calls w ++ tids /\
    out w' = out w ++ [RegisterThread self; CancelRunningTasks] /\
    _tid t ∈ cancel_pending w' /\
    (self ∈ cancel_pending w' ->
     self ∈ cancel_pending w \/
     exists p t', heap w !! p = Some t' /\ _tid t' = self).
Proof.
  intros Hh Hnn Hlive Hknown Hids.
  set (w1 := set_tasks (<[self := this]> (_tasks w))
               (set_out (out w ++ [RegisterThread self]) w)).
  assert (Hlive1 : live_registry w1).
  { intros tid p. simpl.
    intros [[_ <-]|[_ Hm]]%lookup_insert_Some Hp; [by eexists|].
    by eapply Hlive. }
  pose proof (cancel_running_tasks_Ok w1 Hlive1) as Hrun.
  simpl (heap w1) in Hrun.
  set (snapshot := push_running (entries (_tasks w1)) []) in *.
  set (tids := tids_of (heap w) snapshot) in *.
  assert (Hthis : this ∈ snapshot).
  { apply elem_of_running. split; [done|].
    exists self. simpl. apply lookup_insert_eq. }
  assert (Hall : Forall (fun tid => tid ∈ threads w) tids).
  { apply Forall_forall. intros tid (p & Hp & Htid)%list_elem_of_omap.
    apply elem_of_running in Hp as [_ [tid' Hm]]. simpl in Hm.
    destruct (heap w !! p) as [t'|] eqn:Ht'; [|done].
    injection Htid as <-.
    apply lookup_insert_Some in Hm as [[_ <-]|[_ Hm]].
    - rewrite Hh in Ht'. by injection Ht' as <-.
    - by eapply Hids. }
  assert (Hold : _tid t ∈ tids).
  { apply list_elem_of_omap. exists this. split; [done|]. by rewrite Hh. }
  exists snapshot, tids. eexists. split_and!.
  - erewrite bind_Ok; [|reflexivity]. exact Hrun.
  - done.
  - apply tids_of_live. apply Forall_forall.
    intros p [Hp [tid Hm]]%elem_of_running. by eapply Hlive1.
  - by rewrite cancel_all_calls.
  - rewrite cancel_all_out. simpl.
    rewrite filter_unknown_nil by done. simpl.
    by rewrite app_nil_r, <- app_assoc.
  - rewrite cancel_all_pending. simpl. apply elem_of_union_r.
    apply elem_of_list_to_set, list_elem_of_filter. done.
  - rewrite cancel_all_pending. simpl.
    intros [?|Hin]%elem_of_union; [by left|]. right.
    apply elem_of_list_to_set, list_elem_of_filter in Hin as [_ Hin].
    apply list_elem_of_omap in Hin as (p & _ & Htid).
    destruct (heap w !! p) as [t'|] eqn:Ht'; [|done].
    injection Htid as <-. by exists p, t'.
Qed.

Lemma cancel_before_tid_is_set_witness :
  exists snapshot tids w',
    (TasksRegistry_ctor 2%N 100%N;; cancel_running_tasks) rerun_world
      = Ok tt w' /\
    100%N ∈ snapshot /\
    Forall2 (fun p tid => _tid <$> heap rerun_world !! p = Some tid)
            snapshot tids /\
    cancel_calls w' = cancel_calls rerun_world ++ tids /\
    out w' = out rerun_world ++ [RegisterThread 2%N; CancelRunningTasks] /\
    _tid (set_tid 1%N (fresh_task "two")) ∈ cancel_pending w' /\
    (2%N ∈ cancel_pending w' ->
     2%N ∈ cancel_pending rerun_world \/
     exists p t', heap rerun_world !! p = Some t' /\ _tid t' = 2%N).
Proof.
  apply (cancel_before_tid_is_set rerun_world 2%N 100%N
           (set_tid 1%N (fresh_task "two"))).
  - vm_compute. reflexivity.
  - discriminate.
  - intros tid p Hm _. unfold rerun_world in Hm; simpl in Hm.
    apply lookup_singleton_Some in Hm as [_ <-]. by eexists.
  - simpl. apply elem_of_union_l. by apply elem_of_singleton.
  - intros tid p t' Hm Ht'. unfold rerun_world in Hm; simpl in Hm.
    apply lookup_singleton_Some in Hm as [_ <-].
    vm_compute in Ht'. injection Ht' as <-.
    simpl. apply elem_of_union_l. by apply elem_of_singleton.
Defined.

(* ===================================================================== *)
(** ** The set-up and the end of [main] *)
(* ===================================================================== *)

Lemma terminating_cases sig :
  terminating sig = true <-> sig = SIGINT \/ sig = SIGABRT \/ sig = SIGTERM.
Proof. unfold terminating. rewrite !orb_true_iff, !Z.eqb_eq. tauto. Qed.

(** X16: the set-up of [main] and its end. Every exit of the set-up has
    code -1 and, unless the creation of the handler thread itself failed,
    happens before that thread exists; a wrong number of arguments exits
    before any signal is touched. When the set-up goes on, the signals
    waited for are the seven of [sig_nums], among them every signal on
    which the handler cancels; they were blocked, on top of the mask
    found, before the handler thread was created, which therefore starts
    with them blocked; and the end of [main] puts back the mask found. *)
Theorem main_setup_and_end argc create_rc p :
  match Main.main_setup argc create_rc p with
  | Main.Exit code p' =>
      code = -1 /\ Main.handler_mask p' = Main.handler_mask p /\
      (argc <> 2 ->
       Main.sig_set p' = Main.sig_set p /\ Main.blocked p' = Main.blocked p /\
       Main.console p' = Main.console p ++ [Main.Usage])
  | Main.Continue original p' =>
      argc = 2 /\ create_rc = 0 /\
      original = Main.blocked p /\
      (forall sig, sig ∈ Main.sig_set p' <-> sig ∈ Main.sig_nums) /\
      (forall sig, terminating sig = true -> sig ∈ Main.sig_set p') /\
      Main.blocked p' = Main.blocked p ∪ Main.sig_set p' /\
      Main.handler_mask p' = Some (Main.blocked p') /\
      Main.console p' = Main.console p /\
      exists p'',
        Main.main_end original p' = Main.Exit 0 p'' /\
        Main.blocked p'' = Main.blocked p
  end.
Proof.
  unfold Main.main_setup.
  destruct (argc =? 2) eqn:Hargc; simpl.
  2:{ split_and!; try done. }
  apply Z.eqb_eq in Hargc as ->.
  unfold Main.pthread_create_handler.
  destruct (create_rc =? 0) eqn:Hrc; simpl.
  2:{ split_and!; done. }
  apply Z.eqb_eq in Hrc as ->.
  assert (Hset : forall sig,
            sig ∈ (∅ ∪ {[SIGINT]} ∪ {[SIGTERM]} ∪ {[Main.SIGILL]} ∪
                     {[Main.SIGFPE]} ∪ {[Main.SIGBUS]} ∪ {[Main.SIGTRAP]} ∪
                     {[SIGABRT]} : gset Z) <-> sig ∈ Main.sig_nums).
  { intros sig. unfold Main.sig_nums.
    rewrite !elem_of_union, !elem_of_singleton, elem_of_empty.
    rewrite !elem_of_cons, elem_of_nil. tauto. }
  split_and!; try done.
  - intros sig Hsig. apply Hset. apply terminating_cases in Hsig.
    unfold Main.sig_nums. rewrite !elem_of_cons. tauto.
  - eexists. split; reflexivity.
Qed.

(* ===================================================================== *)
(** ** Files too short for a counter to wrap *)
(* ===================================================================== *)

Lemma length_append (s1 s2 : string) :
  String.length (s1 ++ s2) = (String.length s1 + String.length s2)%nat.
Proof.
  induction s1 as [|a s1 IH]; [reflexivity|].
  change (S (String.length (s1 ++ s2)) =
          S (String.length s1 + String.length s2)).
  by rewrite IH.
Qed.

Lemma is_empty_length s : Ios.is_empty s = false -> (1 <= String.length s)%nat.
Proof. destruct s; [done|]. simpl. lia. Qed.

(** A split has at most one piece per character, and one more when a piece
    was under way; its pieces are together no longer than the text. *)
Lemma split_at_sizes d cur s :
  (List.length (split_at d cur s) <=
     String.length s + (if Ios.is_empty cur then 0 else 1))%nat /\
  (total_length (split_at d cur s) <=
     String.length cur + String.length s)%nat.
Proof.
  unfold total_length.
  revert cur. induction s as [|a r IH]; intros cur; simpl.
  - destruct (Ios.is_empty cur); simpl; lia.
  - destruct (Ascii.eqb a d).
    + destruct (IH EmptyString) as [H1 H2]. simpl in H1, H2 |- *. clear IH.
      set (x := foldr _ _ _) in *.
      destruct (Ios.is_empty cur); split; lia.
    + destruct (IH (cur ++ String a EmptyString)%string) as [H1 H2].
      rewrite length_append in H2. simpl in H2.
      assert (Ios.is_empty (cur ++ String a EmptyString) = false)
        by (by destruct cur).
      rewrite H in H1. clear IH. set (x := foldr _ _ _) in *.
      destruct (Ios.is_empty cur); split; lia.
Qed.

Lemma total_length_filter (P : string -> Prop) `{!forall l, Decision (P l)} ls :
  (total_length (filter P ls) <= total_length ls)%nat.
Proof.
  induction ls as [|l ls IH]; [done|].
  destruct (decide (P l)).
  - rewrite filter_cons_True by done. simpl. lia.
  - rewrite filter_cons_False by done. simpl. lia.
Qed.

Lemma nonempty_lines_sizes contents :
  (List.length (nonempty_lines contents) <= String.length contents)%nat /\
  (List.length (file_words contents) <= String.length contents)%nat.
Proof.
  destruct (split_at_sizes "010" EmptyString contents) as [H1 H2].
  simpl in H1, H2. split.
  - unfold nonempty_lines.
    pose proof (length_filter nonempty (split_at "010" EmptyString contents)).
    lia.
  - pose proof (total_length_filter nonempty
                  (split_at "010" EmptyString contents)) as H3.
    fold (nonempty_lines contents) in H3.
    assert (H4 : (List.length (file_words contents) <=
                    total_length (nonempty_lines contents))%nat).
    { unfold file_words. generalize (nonempty_lines contents). intros ls.
      induction ls as [|l ls IH]; [done|].
      unfold total_length in *. rewrite fmap_cons.
      cbn [List.concat foldr]. rewrite length_app.
      destruct (split_at_sizes " " EmptyString l) as [H5 _]. simpl in H5.
      lia. }
    lia.
Qed.

(** X17: for a file of fewer than 2^32 characters no counter wraps. A task
    that has counted nothing yet reports the exact number of non-empty
    lines and the exact number of pieces, and the counter of every word is
    exactly its number of occurrences. *)
Theorem Task_call_exact_counts fuel self this w t fname contents :
  heap w !! this = Some t ->
  _fname t = Some fname ->
  fs w !! fname = Some contents ->
  _word_counters t = ∅ ->
  (String.length contents + 2 <= fuel)%nat ->
  Z.of_nat (String.length contents) < uint32_max ->
  exists w' tf,
    Task_call fuel self this w = Ok tt w' /\
    out w' = out w ++
      [RegisterThread self;
       TaskFinished self
         (Z.of_nat (List.length (nonempty_lines contents)))
         (Z.of_nat (List.length (file_words contents)));
       UnregisterThread self] /\
    heap w' !! this = Some tf /\
    forall word,
      default 0 (_word_counters tf !! word) =
        Z.of_nat (occurrences word (file_words contents)).
Proof.
  intros Hh Hf Hfs Hwc Hn Hsmall.
  destruct (nonempty_lines_sizes contents) as [Hl Hw].
  assert (H32 : uint32_max < size_max) by (unfold uint32_max, size_max; lia).
  eexists _, _. split_and!.
  - by apply (Task_call_readable _ _ _ _ t fname contents).
  - simpl. do 3 f_equal. f_equal.
    + unfold Task_result. rewrite process_lines_line_count; [|simpl; lia].
      simpl. apply Z.mod_small. lia.
    + unfold Task_result. rewrite process_lines_counters. simpl. rewrite Hwc.
      fold (reference_counts contents ∅).
      rewrite reference_counts_file_words, words_total_count_words.
      unfold words_total. rewrite map_fold_empty. simpl.
      apply Z.mod_small. lia.
  - simpl. apply lookup_insert_eq.
  - intros word. unfold Task_result. rewrite process_lines_counters.
    simpl. rewrite Hwc. fold (reference_counts contents ∅).
    rewrite reference_counts_file_words, count_words_value, lookup_empty.
    simpl. destruct (decide _) as [->|_]; [done|].
    apply Z.mod_small.
    pose proof (occurrences_le word (file_words contents)). lia.
Qed.

Lemma Task_call_exact_counts_witness :
  exists w' tf,
    Task_call 6 1%N 100%N example_world = Ok tt w' /\
    out w' = out example_world ++
      [RegisterThread 1%N;
       TaskFinished 1%N
         (Z.of_nat (List.length (nonempty_lines two_lines)))
         (Z.of_nat (List.length (file_words two_lines)));
       UnregisterThread 1%N] /\
    heap w' !! 100%N = Some tf /\
    forall word,
      default 0 (_word_counters tf !! word) =
        Z.of_nat (occurrences word (file_words two_lines)).
Proof.
  apply (Task_call_exact_counts 6 1%N 100%N example_world (fresh_task "two")
           "two"%string two_lines); vm_compute; (reflexivity || lia).
Defined.

(** X18: a failed open leaves the task as it was but for its thread id:
    the line count and the start time are not set and nothing is
    counted. *)
Theorem Task_call_open_failure_object fuel self this w t fname :
  heap w !! this = Some t ->
  _fname t = Some fname ->
  fs w !! fname = None ->
  exists w',
    Task_call fuel self this w = Ok tt w' /\
    heap w' = <[this := set_tid self t]> (heap w) /\
    fs w' = fs w /\ cancel_calls w' = cancel_calls w.
Proof.
  intros Hh Hf Hfs. eexists. split_and!.
  - unfold Task_call.
    erewrite bind_Ok; [|reflexivity].
    erewrite bind_Ok;
      [|by apply (Task_body_unreadable _ _ _ _ t fname)].
    reflexivity.
  - reflexivity.
  - reflexivity.
  - reflexivity.
Qed.

Lemma Task_call_open_failure_object_witness :
  exists w',
    Task_call 5 1%N 200%N example_world = Ok tt w' /\
    heap w' = <[200%N := set_tid 1%N (fresh_task "missing")]>
                (heap example_world) /\
    fs w' = fs example_world /\
    cancel_calls w' = cancel_calls example_world.
Proof.
  apply (Task_call_open_failure_object 5 1%N 200%N example_world
           (fresh_task "missing") "missing"); vm_compute; reflexivity.
Defined.

(* ===================================================================== *)
(** ** A run under the thread library's deferred cancellation *)
(* ===================================================================== *)




















